(** * post.ipynb: rasterizing matplotlib traces below a zorder threshold

    A shallow embedding of the notebook [post.ipynb].  The notebook has one
    data cell (two calls into [numpy.random]) and three plotting cells, each
    of which builds a figure, saves it as PDF into an [io.BytesIO] and prints
    the size of the buffer in megabytes through [astropy.units].

    Conventions of the embedding:
    - Python floats are modelled by exact rationals [Q], so that a
      statement about a computed value holds of the program up to the
      rounding of binary64;
    - the global [numpy.random] state is threaded explicitly; the bit
      generator itself is an interface ([BitGenerator]);
    - the PDF backend is an interface ([Backend]) from a list of drawing
      operations to bytes; what the notebook decides is which operations
      reach it, and that is modelled from [Axes.draw] and
      [allow_rasterization] of matplotlib 3.4 and later, where consecutive
      rasterized artists share one image;
    - a cell is a function from the kernel namespace to a [result]. *)

From Stdlib Require Import String ZArith QArith List Bool Arith Lia.
From Stdlib Require Import Permutation Sorted Qabs.
Import ListNotations.

Local Open Scope string_scope.
Local Open Scope list_scope.
Local Open Scope Z_scope.

(* ================================================================== *)
(** ** Exceptions *)

Inductive exn : Type :=
| NameError (name : string)
| ValueError.   (** the text of the message is not modelled *)

Inductive result (A : Type) : Type :=
| Ok (a : A)
| Raise (e : exn).

Arguments Ok {A} a.
Arguments Raise {A} e.

Definition bind {A B : Type} (m : result A) (f : A -> result B) : result B :=
  match m with
  | Ok a => f a
  | Raise e => Raise e
  end.

Notation "'let?' x ':=' m 'in' k" := (bind m (fun x => k))
  (at level 10, x pattern, m at level 100, k at level 200).

(** Reading a name of the kernel namespace that no cell has bound yet. *)
Definition lookup {A : Type} (name : string) (o : option A) : result A :=
  match o with
  | Some a => Ok a
  | None => Raise (NameError name)
  end.

(* ================================================================== *)
(** ** numpy arrays

    Only the ranks the notebook uses.  A rank-2 array carries its column
    count, as numpy's [shape] does, so that an array without rows still has
    a second dimension. *)

Inductive ndarray : Type :=
| Arr1 (v : list Q)
| Arr2 (ncols : nat) (rows : list (list Q)).

Definition shape (a : ndarray) : list nat :=
  match a with
  | Arr1 v => [length v]
  | Arr2 ncols rows => [length rows; ncols]
  end.

(** Every row of a rank-2 array has [ncols] entries. *)
Definition rectangular (a : ndarray) : Prop :=
  match a with
  | Arr1 _ => True
  | Arr2 ncols rows => Forall (fun r => length r = ncols) rows
  end.

(** [a[:, j]] *)
Definition column (j : nat) (rows : list (list Q)) : list Q :=
  map (fun r => nth j r 0%Q) rows.

(** The columns of [a], left to right: [a.T] as a list of vectors. *)
Definition columns (ncols : nat) (rows : list (list Q)) : list (list Q) :=
  map (fun j => column j rows) (seq 0 ncols).

(** Broadcasting of [a] to the shape [(nr, nc)], as [numpy.broadcast_to]:
    dimensions are aligned on the right and a dimension of extent 1 is
    repeated. *)
Definition broadcast_row (nc : nat) (r : list Q) : result (list Q) :=
  if (length r =? nc)%nat then Ok r
  else match r with
       | [x] => Ok (repeat x nc)
       | _ => Raise ValueError
       end.

Fixpoint broadcast_rows (nc : nat) (rows : list (list Q)) : result (list (list Q)) :=
  match rows with
  | [] => Ok []
  | r :: rest =>
      let? r' := broadcast_row nc r in
      let? rest' := broadcast_rows nc rest in
      Ok (r' :: rest')
  end.

Definition broadcast_to (a : ndarray) (nr nc : nat) : result (list (list Q)) :=
  match a with
  | Arr1 v =>
      let? r := broadcast_row nc v in Ok (repeat r nr)
  | Arr2 _ rows =>
      let? rows' := broadcast_rows nc rows in
      if (length rows' =? nr)%nat then Ok rows'
      else match rows' with
           | [r] => Ok (repeat r nr)
           | _ => Raise ValueError
           end
  end.

(* ================================================================== *)
(** ** numpy.random

    The legacy [RandomState] behind [np.random.uniform] and
    [np.random.normal].  The bit generator supplies raw 32-bit words and
    standard normal deviates; everything above it is written out. *)

Class BitGenerator (rng : Type) : Type := {
  (** one raw output word; only its low 32 bits are used *)
  next_uint32 : rng -> Z * rng;
  (** one standard normal deviate ([legacy_gauss]) *)
  legacy_gauss : rng -> Q * rng
}.

Definition uint32 (z : Z) : Z := z mod 2 ^ 32.

Section Sampling.

Context {rng : Type} `{BitGenerator rng}.

(** [mt19937_next_double]: two words give a 53-bit mantissa,
    [(a * 67108864.0 + b) / 9007199254740992.0] with [a = next >> 5]
    and [b = next >> 6]. *)
Definition next_double (s : rng) : Q * rng :=
  let (x, s1) := next_uint32 s in
  let (y, s2) := next_uint32 s1 in
  let a := Z.shiftr (uint32 x) 5 in
  let b := Z.shiftr (uint32 y) 6 in
  (Qmake (a * 67108864 + b) 9007199254740992, s2).

(** [random_uniform(state, lower, range)] *)
Definition random_uniform (lower range : Q) (s : rng) : Q * rng :=
  let (u, s') := next_double s in
  ((lower + range * u)%Q, s').

(** [legacy_normal(state, loc, scale)] *)
Definition legacy_normal (loc scale : Q) (s : rng) : Q * rng :=
  let (g, s') := legacy_gauss s in
  ((loc + scale * g)%Q, s').

(** Filling an output array element by element, in C order, while the
    generator state advances: one call of [f] per element. *)
Fixpoint fill {A B : Type} (f : A -> rng -> B * rng) (l : list A) (s : rng)
  : list B * rng :=
  match l with
  | [] => ([], s)
  | a :: rest =>
      let (b, s1) := f a s in
      let (bs, s2) := fill f rest s1 in
      (b :: bs, s2)
  end.

(** [np.random.uniform(low, high, size=n)] *)
Definition uniform (low high : Q) (size : nat) (s : rng) : ndarray * rng :=
  let (v, s') := fill (fun _ : nat => random_uniform low (high - low)%Q)
                      (seq 0 size) s in
  (Arr1 v, s').

(** [np.random.normal(loc, scale, size=(nr, nc))] with an array [loc]:
    [loc] is broadcast against [size]; a mismatch raises. *)
Definition normal (loc : ndarray) (scale : Q) (size : nat * nat) (s : rng)
  : result (ndarray * rng) :=
  let (nr, nc) := size in
  let? locs := broadcast_to loc nr nc in
  let (rows, s') := fill (fill (fun l => legacy_normal l scale)) locs s in
  Ok (Arr2 nc rows, s').

(** The generator state after [k] doubles, respectively [k] deviates, and
    the [k]-th value of each stream. *)
Definition skip_double (k : nat) (s : rng) : rng :=
  Nat.iter k (fun s => snd (next_double s)) s.

Definition skip_gauss (k : nat) (s : rng) : rng :=
  Nat.iter k (fun s => snd (legacy_gauss s)) s.

Definition double_at (s : rng) (k : nat) : Q := fst (next_double (skip_double k s)).

Definition gauss_at (s : rng) (k : nat) : Q := fst (legacy_gauss (skip_gauss k s)).

(** The generator state after [k] raw words, and the [k]-th raw word. *)
Definition skip_word (k : nat) (s : rng) : rng :=
  Nat.iter k (fun s => snd (next_uint32 s)) s.

Definition word_at (s : rng) (k : nat) : Z := fst (next_uint32 (skip_word k s)).

End Sampling.

(** The double in the unit interval that two raw words give: the upper 27
    bits of the first and the upper 26 bits of the second form a 53-bit
    numerator over 2^53. *)
Definition mantissa (x y : Z) : Z :=
  Z.shiftr (x mod 2 ^ 32) 5 * 2 ^ 26 + Z.shiftr (y mod 2 ^ 32) 6.

Definition unit_double (x y : Z) : Q := Qmake (mantissa x y) (2 ^ 53).

(* ================================================================== *)
(** ** astropy.units

    The information units of [astropy.units]: [byte] is [8 * bit], and it
    takes both the SI prefixes (powers of 1000) and the binary ones (powers
    of 1024). *)

Module u.

Inductive Unit : Type :=
| bit
| byte
| kilobyte
| megabyte
| gigabyte
| kibibyte
| mebibyte
| gibibyte.

Definition eqb (a b : Unit) : bool :=
  match a, b with
  | bit, bit | byte, byte
  | kilobyte, kilobyte | megabyte, megabyte | gigabyte, gigabyte
  | kibibyte, kibibyte | mebibyte, mebibyte | gibibyte, gibibyte => true
  | _, _ => false
  end.

(** The scale of the unit once decomposed to the base unit [bit]. *)
Definition scale (a : Unit) : Q :=
  match a with
  | bit => 1
  | byte => 8
  | kilobyte => 8 * 1000
  | megabyte => 8 * 1000000
  | gigabyte => 8 * 1000000000
  | kibibyte => 8 * 1024
  | mebibyte => 8 * 1048576
  | gibibyte => 8 * 1073741824
  end.

(** [UnitBase._to]: the factor from [a] to [b]; the very same unit
    converts with factor one. *)
Definition _to (a b : Unit) : Q :=
  if eqb a b then 1%Q else (scale a / scale b)%Q.

End u.

Record Quantity : Type := {
  value : Q;
  unit : u.Unit
}.

(** [n * unit] for a Python int [n] *)
Definition int_mul_unit (n : Z) (a : u.Unit) : Quantity :=
  {| value := inject_Z n; unit := a |}.

(** [Quantity.to(unit)] *)
Definition to (q : Quantity) (a : u.Unit) : Quantity :=
  {| value := (u._to (unit q) a * value q)%Q; unit := a |}.

(* ================================================================== *)
(** ** matplotlib: artists, axes and drawing *)

Inductive Color : Type :=
| CycleColor (n : nat)        (** ['C<n>'] of the axes' property cycle *)
| NamedColor (name : string).

Record Line2D : Type := {
  xdata : list nat;
  ydata : list Q;
  marker : string;
  linewidth : Q;
  alpha : option Q;
  color : Color;
  zorder : Z;
  rasterized : bool
}.

(** The keyword arguments the notebook passes to [Axes.plot]; [None] is a
    keyword that is not passed. *)
Record LineProps : Type := {
  kw_marker : option string;
  kw_linewidth : option Q;
  kw_alpha : option Q;
  kw_color : option string;
  kw_zorder : option Z;
  kw_rasterized : option bool
}.

Record Axes : Type := {
  lines : list Line2D;
  rasterization_zorder : option Z;
  (** position in the default property cycle of ten colors *)
  prop_cycle_pos : nat
}.

Record Figure : Type := {
  axes : Axes
}.

(** [plt.subplots()]: a figure with one empty axes.  [fig] and [ax] of the
    notebook name the two levels of this one object, so a line added
    through [ax] is part of what [fig.savefig] draws. *)
Definition subplots : Figure :=
  {| axes := {| lines := []; rasterization_zorder := None; prop_cycle_pos := 0 |} |}.

Definition from_option {A : Type} (d : A) (o : option A) : A :=
  match o with
  | Some a => a
  | None => d
  end.

(** One [Line2D] over [y], with [x = arange(len(y))].  Defaults: rcParams
    [lines.marker = 'None'] and [lines.linewidth = 1.5], [Line2D.zorder = 2],
    not rasterized; a line without [color] takes the next color of the
    cycle. *)
Definition make_line (kw : LineProps) (cycle_pos : nat) (y : list Q) : Line2D * nat :=
  let (c, next) :=
    match kw_color kw with
    | Some name => (NamedColor name, cycle_pos)
    | None => (CycleColor cycle_pos, (S cycle_pos mod 10)%nat)
    end in
  ({| xdata := seq 0 (length y);
      ydata := y;
      marker := from_option "None" (kw_marker kw);
      linewidth := from_option (3 # 2) (kw_linewidth kw);
      alpha := kw_alpha kw;
      color := c;
      zorder := from_option 2 (kw_zorder kw);
      rasterized := from_option false (kw_rasterized kw) |},
   next).

Fixpoint make_lines (kw : LineProps) (cycle_pos : nat) (ys : list (list Q))
  : list Line2D * nat :=
  match ys with
  | [] => ([], cycle_pos)
  | y :: rest =>
      let (l, p1) := make_line kw cycle_pos y in
      let (ls, p2) := make_lines kw p1 rest in
      (l :: ls, p2)
  end.

(** [ax.plot(y, **kw)]: a vector is one line, a matrix one line per
    column; the new lines go after the ones the axes already has. *)
Definition plot (y : ndarray) (kw : LineProps) (ax : Axes) : Axes :=
  let ys := match y with
            | Arr1 v => [v]
            | Arr2 ncols rows => columns ncols rows
            end in
  let (new, pos) := make_lines kw (prop_cycle_pos ax) ys in
  {| lines := lines ax ++ new;
     rasterization_zorder := rasterization_zorder ax;
     prop_cycle_pos := pos |}.

(** [ax.set_rasterization_zorder(z)] *)
Definition set_rasterization_zorder (z : Z) (ax : Axes) : Axes :=
  {| lines := lines ax;
     rasterization_zorder := Some z;
     prop_cycle_pos := prop_cycle_pos ax |}.

(** What reaches the backend: a path drawn as vector strokes, or one
    embedded image on which a group of artists was painted. *)
Inductive DrawOp : Type :=
| VectorPath (l : Line2D)
| RasterImage (group : list Line2D).

(** The lines of an axes in stable zorder: what
    [sorted(lines, key=lambda a: a.get_zorder())] gives. *)
Fixpoint insert_by_zorder (a : Line2D) (l : list Line2D) : list Line2D :=
  match l with
  | [] => [a]
  | b :: rest =>
      if zorder a <=? zorder b then a :: b :: rest
      else b :: insert_by_zorder a rest
  end.

Definition sorted_by_zorder (l : list Line2D) : list Line2D :=
  fold_right insert_by_zorder [] l.

(** The artists of an axes: the lines that [plot] added and the artists
    every axes has of its own.  Zorders are kept doubled ([zorder2]), so
    that the half-integer zorders of the axes' own artists stay integers:
    the background patch has zorder 1, the two axis objects 1.5 (rcParams
    [axes.axisbelow = 'line']), the four spines 2.5 and the three titles
    3. *)
Inductive Artist : Type :=
| ALine (l : Line2D)
| AOwn (name : string) (z2 : Z).

Definition zorder2 (a : Artist) : Z :=
  match a with
  | ALine l => 2 * zorder l
  | AOwn _ z2 => z2
  end.

Definition get_rasterized (a : Artist) : bool :=
  match a with
  | ALine l => rasterized l
  | AOwn _ _ => false
  end.

Definition lines_of (a : Artist) : list Line2D :=
  match a with
  | ALine l => [l]
  | AOwn _ _ => []
  end.

Definition patch : Artist := AOwn "patch" 2.

Definition spines : list Artist :=
  [AOwn "spines.left" 5; AOwn "spines.right" 5;
   AOwn "spines.bottom" 5; AOwn "spines.top" 5].

Definition axis_objects : list Artist := [AOwn "xaxis" 3; AOwn "yaxis" 3].

Definition titles : list Artist :=
  [AOwn "title" 6; AOwn "_left_title" 6; AOwn "_right_title" 6].

Definition own_children : list Artist := spines ++ axis_objects ++ titles.

(** [Axes.get_children()] without the patch, which [Axes.draw] takes out
    of the list and draws first. *)
Definition get_children (ax : Axes) : list Artist :=
  map ALine (lines ax) ++ own_children.

(** [sorted(artists, key=lambda artist: artist.get_zorder())]: stable. *)
Fixpoint insert_artist (a : Artist) (l : list Artist) : list Artist :=
  match l with
  | [] => [a]
  | b :: rest =>
      if zorder2 a <=? zorder2 b then a :: b :: rest
      else b :: insert_artist a rest
  end.

Definition sorted_artists (l : list Artist) : list Artist :=
  fold_right insert_artist [] l.

(** Drawing artists one after the other through [allow_rasterization].
    [image] is the raster being painted, if one is open: an artist whose
    [rasterized] flag is set is painted on it, opening one if need be, and
    leaves it open; an artist without the flag closes it, which hands the
    image to the backend, and is drawn as vector graphics.  The image still
    open at the end is closed when the figure is finished.  Of the vector
    graphics the model keeps the paths of the lines. *)
Fixpoint paint (image : option (list Line2D)) (artists : list Artist)
  : list DrawOp :=
  match artists with
  | [] =>
      match image with
      | Some g => [RasterImage g]
      | None => []
      end
  | a :: rest =>
      if get_rasterized a then
        paint (Some (from_option [] image ++ lines_of a)) rest
      else
        match image with
        | Some g => [RasterImage g]
        | None => []
        end ++ map VectorPath (lines_of a) ++ paint None rest
  end.

(** [Axes.draw]: the children in zorder; when a rasterization zorder is
    set and the first child lies below it, the children up to and including
    that zorder ([searchsorted(..., side='right')]) are painted, behind the
    patch, on one image, which stays open for the artists that follow;
    otherwise the patch and all children are drawn one after the other. *)
Definition draw (ax : Axes) : list DrawOp :=
  let artists := sorted_artists (get_children ax) in
  let (artists_rasterized, artists) :=
    match rasterization_zorder ax, artists with
    | Some rz, first :: _ =>
        if zorder2 first <? 2 * rz then
          (filter (fun a => zorder2 a <=? 2 * rz) artists,
           filter (fun a => 2 * rz <? zorder2 a) artists)
        else ([], artists)
    | _, _ => ([], artists)
    end in
  match artists_rasterized with
  | [] => paint None (patch :: artists)
  | _ :: _ =>
      paint (Some (flat_map lines_of (patch :: artists_rasterized))) artists
  end.

(** The output backend chosen by [format]: from the drawing operations and
    the resolution to the bytes of the document. *)
Class Backend : Type := {
  print_figure : string -> Z -> list DrawOp -> list Byte.byte
}.

(** [fig.savefig(buffer, format=..., dpi=...)]: the bytes written to the
    (empty) buffer. *)
Definition savefig `{Backend} (fig : Figure) (format : string) (dpi : Z)
  : list Byte.byte :=
  print_figure format dpi (draw (axes fig)).

(** [buffer.getbuffer().nbytes] *)
Definition nbytes (buffer : list Byte.byte) : Z := Z.of_nat (length buffer).

(* ================================================================== *)
(** ** The kernel and the cells of the notebook *)

(** The names the cells bind.  [buffer] lives only inside its [with]
    block, which closes it, and is a local of the cell here. *)
Record Kernel (rng : Type) : Type := {
  imported : bool;                (** cell 1 has run: [io], [u], [plt], [np] *)
  np_random : rng;                (** the global [numpy.random] state *)
  data : option ndarray;
  other_line : option ndarray;
  fig : option Figure;            (** [fig], and [ax] as its axes *)
  filesize : option Quantity;
  stdout : list Quantity          (** what [print] has written, oldest first *)
}.

Arguments imported {rng} k.
Arguments np_random {rng} k.
Arguments data {rng} k.
Arguments other_line {rng} k.
Arguments fig {rng} k.
Arguments filesize {rng} k.
Arguments stdout {rng} k.

Inductive cell : Type :=
| Cell1   (** the imports *)
| Cell3   (** the sample data *)
| Cell5   (** plain vector drawing *)
| Cell7   (** [rasterized=True] on the traces *)
| Cell9.  (** traces below the rasterization zorder *)

Section Notebook.

Context {rng : Type} `{BitGenerator rng} `{Backend}.

Definition need_import (name : string) (k : Kernel rng) : result Datatypes.unit :=
  if imported k then Ok tt else Raise (NameError name).

(** The end of a plotting cell: bind [fig] and [filesize], print. *)
Definition report (k : Kernel rng) (f : Figure) (size : Quantity) : Kernel rng :=
  {| imported := imported k;
     np_random := np_random k;
     data := data k;
     other_line := other_line k;
     fig := Some f;
     filesize := Some size;
     stdout := stdout k ++ [size] |}.

Definition cell_1 (k : Kernel rng) : result (Kernel rng) :=
  Ok {| imported := true;
        np_random := np_random k;
        data := data k;
        other_line := other_line k;
        fig := fig k;
        filesize := filesize k;
        stdout := stdout k |}.

(** [data = np.random.normal(np.random.uniform(-10, 10, size=256),
                             size=(1000, 256))]
    [other_line = np.random.uniform(size=1000)]
    with the defaults [scale=1.0], [low=0.0], [high=1.0]. *)
Definition cell_3 (k : Kernel rng) : result (Kernel rng) :=
  let? _ := need_import "np" k in
  let (offsets, s1) := uniform (-10) 10 256 (np_random k) in
  let? (d, s2) := normal offsets 1 (1000, 256)%nat s1 in
  let (o, s3) := uniform 0 1 1000 s2 in
  Ok {| imported := imported k;
        np_random := s3;
        data := Some d;
        other_line := Some o;
        fig := fig k;
        filesize := filesize k;
        stdout := stdout k |}.

(** [ax.plot(data, marker="", linewidth=1.0, alpha=0.5)]
    [ax.plot(other_line, marker="", color="k")] *)
Definition cell_5 (k : Kernel rng) : result (Kernel rng) :=
  let? _ := need_import "plt" k in
  let ax := axes subplots in
  let? d := lookup "data" (data k) in
  let ax := plot d {| kw_marker := Some ""; kw_linewidth := Some 1%Q;
                      kw_alpha := Some (1 # 2); kw_color := None;
                      kw_zorder := None; kw_rasterized := None |} ax in
  let? o := lookup "other_line" (other_line k) in
  let ax := plot o {| kw_marker := Some ""; kw_linewidth := None;
                      kw_alpha := None; kw_color := Some "k";
                      kw_zorder := None; kw_rasterized := None |} ax in
  let f := {| axes := ax |} in
  let buffer := savefig f "pdf" 250 in
  let size := to (int_mul_unit (nbytes buffer) u.byte) u.megabyte in
  Ok (report k f size).

(** [ax.plot(data, marker="", linewidth=1.0, alpha=0.5, rasterized=True)]
    [ax.plot(other_line, marker="", color="k")] *)
Definition cell_7 (k : Kernel rng) : result (Kernel rng) :=
  let? _ := need_import "plt" k in
  let ax := axes subplots in
  let? d := lookup "data" (data k) in
  let ax := plot d {| kw_marker := Some ""; kw_linewidth := Some 1%Q;
                      kw_alpha := Some (1 # 2); kw_color := None;
                      kw_zorder := None; kw_rasterized := Some true |} ax in
  let? o := lookup "other_line" (other_line k) in
  let ax := plot o {| kw_marker := Some ""; kw_linewidth := None;
                      kw_alpha := None; kw_color := Some "k";
                      kw_zorder := None; kw_rasterized := None |} ax in
  let f := {| axes := ax |} in
  let buffer := savefig f "pdf" 250 in
  let size := to (int_mul_unit (nbytes buffer) u.byte) u.megabyte in
  Ok (report k f size).

(** [ax.plot(data, marker="", linewidth=1.0, alpha=0.5, zorder=-10)]
    [ax.set_rasterization_zorder(0)]
    [ax.plot(other_line, marker="", color="k")] *)
Definition cell_9 (k : Kernel rng) : result (Kernel rng) :=
  let? _ := need_import "plt" k in
  let ax := axes subplots in
  let? d := lookup "data" (data k) in
  let ax := plot d {| kw_marker := Some ""; kw_linewidth := Some 1%Q;
                      kw_alpha := Some (1 # 2); kw_color := None;
                      kw_zorder := Some (-10); kw_rasterized := None |} ax in
  let ax := set_rasterization_zorder 0 ax in
  let? o := lookup "other_line" (other_line k) in
  let ax := plot o {| kw_marker := Some ""; kw_linewidth := None;
                      kw_alpha := None; kw_color := Some "k";
                      kw_zorder := None; kw_rasterized := None |} ax in
  let f := {| axes := ax |} in
  let buffer := savefig f "pdf" 250 in
  let size := to (int_mul_unit (nbytes buffer) u.byte) u.megabyte in
  Ok (report k f size).

Definition run_cell (c : cell) (k : Kernel rng) : result (Kernel rng) :=
  match c with
  | Cell1 => cell_1 k
  | Cell3 => cell_3 k
  | Cell5 => cell_5 k
  | Cell7 => cell_7 k
  | Cell9 => cell_9 k
  end.

(** Running cells one after the other; the first exception stops the run. *)
Fixpoint run (cs : list cell) (k : Kernel rng) : result (Kernel rng) :=
  match cs with
  | [] => Ok k
  | c :: rest => let? k' := run_cell c k in run rest k'
  end.

(** A fresh kernel. *)
Definition fresh (seed : rng) : Kernel rng :=
  {| imported := false; np_random := seed; data := None; other_line := None;
     fig := None; filesize := None; stdout := [] |}.

End Notebook.

(** The notebook, top to bottom. *)
Definition notebook : list cell := [Cell1; Cell3; Cell5; Cell7; Cell9].

(* ================================================================== *)
(** ** Vocabulary of the statements *)

(** What the last three lines of a plotting cell compute from its figure. *)
Definition measure `{Backend} (f : Figure) : Quantity :=
  to (int_mul_unit (nbytes (savefig f "pdf" 250)) u.byte) u.megabyte.

(** A line, an axes and a figure with the rasterization settings put back
    to their defaults: [zorder] and [rasterized] of each line, and the
    rasterization zorder of the axes. *)
Definition unrasterized_line (l : Line2D) : Line2D :=
  {| xdata := xdata l; ydata := ydata l; marker := marker l;
     linewidth := linewidth l; alpha := alpha l; color := color l;
     zorder := 2; rasterized := false |}.

Definition unrasterized_axes (ax : Axes) : Axes :=
  {| lines := map unrasterized_line (lines ax);
     rasterization_zorder := None;
     prop_cycle_pos := prop_cycle_pos ax |}.

Definition unrasterized (f : Figure) : Figure :=
  {| axes := unrasterized_axes (axes f) |}.

Definition default_rasterization (kw : LineProps) : LineProps :=
  {| kw_marker := kw_marker kw; kw_linewidth := kw_linewidth kw;
     kw_alpha := kw_alpha kw; kw_color := kw_color kw;
     kw_zorder := None; kw_rasterized := None |}.

(** Every line [plot] makes carries the data it was given, over the index
    [0 .. len(y)-1], and the keywords of the call or their defaults. *)
Definition made_from (kw : LineProps) (l : Line2D) : Prop :=
  xdata l = seq 0 (length (ydata l)) /\
  marker l = from_option "None" (kw_marker kw) /\
  linewidth l = from_option (3 # 2) (kw_linewidth kw) /\
  alpha l = kw_alpha kw /\
  zorder l = from_option 2 (kw_zorder kw) /\
  rasterized l = from_option false (kw_rasterized kw) /\
  match kw_color kw with
  | Some name => color l = NamedColor name
  | None => exists n, color l = CycleColor n
  end.

(** The figure of a plotting cell as a function of the two arrays: the
    traces, then the rasterization zorder when the cell sets one, then the
    reference line. *)
Definition figure_of (kw_traces kw_reference : LineProps) (rz : option Z)
    (d o : ndarray) : Figure :=
  let ax := plot d kw_traces (axes subplots) in
  let ax := match rz with
            | Some z => set_rasterization_zorder z ax
            | None => ax
            end in
  {| axes := plot o kw_reference ax |}.

(** The keywords of the calls of [plot] in the three plotting cells, and the
    figure each cell builds from [data] and [other_line]. *)
Definition traces_props (c : cell) : LineProps :=
  {| kw_marker := Some ""; kw_linewidth := Some 1%Q;
     kw_alpha := Some (1 # 2); kw_color := None;
     kw_zorder := match c with Cell9 => Some (-10) | _ => None end;
     kw_rasterized := match c with Cell7 => Some true | _ => None end |}.

Definition reference_props : LineProps :=
  {| kw_marker := Some ""; kw_linewidth := None;
     kw_alpha := None; kw_color := Some "k";
     kw_zorder := None; kw_rasterized := None |}.

Definition figure_of_cell (c : cell) (d o : ndarray) : Figure :=
  figure_of (traces_props c) reference_props
            match c with Cell9 => Some 0 | _ => None end d o.

(** The style of the traces and of the reference line. *)
Definition trace_style (l : Line2D) : Prop :=
  marker l = "" /\ linewidth l = 1%Q /\ alpha l = Some (1 # 2).

Definition reference_style (l : Line2D) : Prop :=
  marker l = "" /\ color l = NamedColor "k".

(** The kernel with other values under [fig], [filesize] and on [stdout]. *)
Definition with_outputs {rng : Type} (k : Kernel rng)
    (f : option Figure) (size : option Quantity) (out : list Quantity) : Kernel rng :=
  {| imported := imported k; np_random := np_random k;
     data := data k; other_line := other_line k;
     fig := f; filesize := size; stdout := out |}.

(** What running a cell shows: the figure and the size it binds, and what
    it adds to [stdout]. *)
Definition outcome {rng : Type} `{BitGenerator rng} `{Backend}
    (c : cell) (k : Kernel rng)
  : result (option Figure * option Quantity * list Quantity) :=
  let? k' := run_cell c k in
  Ok (fig k', filesize k', skipn (length (stdout k)) (stdout k')).

Definition plotting_cells : list cell := [Cell5; Cell7; Cell9].

(** [f] shows the two arrays: one trace per column of the matrix in the
    style of the traces, then the reference sequence as a black line, which
    is the last thing drawn and is drawn as a vector path. *)
Definition drawn_from (d o : ndarray) (f : Figure) : Prop :=
  exists ncols rows v traces ref,
    d = Arr2 ncols rows /\ o = Arr1 v /\
    lines (axes f) = traces ++ [ref] /\
    map ydata traces = columns ncols rows /\ ydata ref = v /\
    Forall trace_style traces /\ reference_style ref /\
    exists before, draw (axes f) = before ++ [VectorPath ref].

(** The matrix has as many rows as the reference sequence has values,
    namely 1000. *)
Definition shape_consistent {rng : Type} (k : Kernel rng) : Prop :=
  exists ncols rows v,
    data k = Some (Arr2 ncols rows) /\ other_line k = Some (Arr1 v) /\
    length rows = 1000%nat /\ length v = 1000%nat.

(** All lines of the current figure, if there is one, run over the same
    abscissa [0 .. 999]. *)
Definition shared_abscissa {rng : Type} (k : Kernel rng) : Prop :=
  match fig k with
  | Some f => Forall (fun l => xdata l = seq 0 1000) (lines (axes f))
  | None => True
  end.

Definition notebook_invariant {rng : Type} (k : Kernel rng) : Prop :=
  imported k = true /\ shape_consistent k /\ shared_abscissa k.

(** The figure bound after running [cs], if the run does not raise. *)
Definition figure_after {rng : Type} `{BitGenerator rng} `{Backend}
    (cs : list cell) (k : Kernel rng) : option Figure :=
  match run cs k with
  | Ok k' => fig k'
  | Raise _ => None
  end.

(** What a list of drawing operations holds: the number of lines on each
    embedded image, the lines drawn as vector paths, and all lines in the
    order in which they are painted. *)
Definition image_sizes (ops : list DrawOp) : list nat :=
  flat_map (fun op => match op with
                      | RasterImage g => [length g]
                      | VectorPath _ => []
                      end) ops.

Definition vector_paths (ops : list DrawOp) : list Line2D :=
  flat_map (fun op => match op with
                      | VectorPath l => [l]
                      | RasterImage _ => []
                      end) ops.

Definition drawn_lines (ops : list DrawOp) : list Line2D :=
  flat_map (fun op => match op with
                      | VectorPath l => [l]
                      | RasterImage g => g
                      end) ops.

Definition is_plotting (c : cell) : bool :=
  match c with
  | Cell5 | Cell7 | Cell9 => true
  | Cell1 | Cell3 => false
  end.

(** The name whose lookup fails first when [cs] is run in a kernel where
    the imports are done or not ([imp]) and the two arrays are bound or
    not ([dat]); [None] when no lookup fails. *)
Fixpoint first_error (imp dat : bool) (cs : list cell) : option string :=
  match cs with
  | [] => None
  | Cell1 :: rest => first_error true dat rest
  | Cell3 :: rest => if imp then first_error imp true rest else Some "np"
  | _ :: rest =>
      if imp then
        if dat then first_error imp dat rest else Some "data"
      else Some "plt"
  end.

(** The order in which [sorted] puts two artists. *)
Definition zorder_le (a b : Line2D) : Prop := zorder a <= zorder b.

Definition zorder2_le (a b : Artist) : Prop := zorder2 a <= zorder2 b.

(** Both arrays are bound, or neither is. *)
Definition arrays_bound {rng : Type} (dat : bool) (k : Kernel rng) : Prop :=
  if dat then exists d o, data k = Some d /\ other_line k = Some o
  else data k = None /\ other_line k = None.

(* ================================================================== *)
(** ** Instances for running the model

    A small linear congruential generator and a backend that writes one
    byte per drawing operation.  They serve the examples below; every
    theorem is stated for all generators and all backends. *)

Definition lcg_step (s : Z) : Z := (1664525 * s + 1013904223) mod 2 ^ 32.

#[export] Instance lcg : BitGenerator Z := {
  next_uint32 s := (lcg_step s, lcg_step s);
  legacy_gauss s := (Qmake (lcg_step s - 2147483648) 1073741824, lcg_step s)
}.

#[export] Instance one_byte_per_op : Backend := {
  print_figure _ _ ops := repeat Byte.x00 (length ops)
}.

(* ================================================================== *)
(** * Properties *)

(** ** Sampling *)

Section SamplingFacts.

Context {rng : Type} `{BitGenerator rng}.

Lemma uint32_range (z : Z) : 0 <= uint32 z < 4294967296.
Proof.
  unfold uint32. change (2 ^ 32) with 4294967296.
  apply Z.mod_pos_bound. lia.
Qed.

(** A double of the generator lies in the half-open unit interval. *)
Lemma next_double_range (s : rng) :
  (0 <= fst (next_double s))%Q /\ (fst (next_double s) < 1)%Q.
Proof.
  unfold next_double.
  destruct (next_uint32 s) as [x s1], (next_uint32 s1) as [y s2].
  cbn [fst].
  pose proof (uint32_range x) as Hx. pose proof (uint32_range y) as Hy.
  rewrite !Z.shiftr_div_pow2 by lia.
  change (2 ^ 5) with 32. change (2 ^ 6) with 64.
  assert (Ha : 0 <= uint32 x / 32 < 134217728).
  { split; [apply Z.div_pos; lia | apply Z.div_lt_upper_bound; lia]. }
  assert (Hb : 0 <= uint32 y / 64 < 67108864).
  { split; [apply Z.div_pos; lia | apply Z.div_lt_upper_bound; lia]. }
  unfold Qle, Qlt. cbn [Qnum Qden]. lia.
Qed.

Lemma fill_length {A B : Type} (f : A -> rng -> B * rng) (l : list A) (s : rng) :
  length (fst (fill f l s)) = length l.
Proof.
  revert s. induction l as [|a l IH]; intros s; cbn [fill].
  - reflexivity.
  - destruct (f a s) as [b s1]. specialize (IH s1).
    destruct (fill f l s1) as [bs s2]. cbn [fst length] in *. now rewrite IH.
Qed.

(** Filling from a stream: when each element takes exactly one draw, the
    [j]-th element is computed from the [j]-th draw after the start. *)
Lemma fill_stream {A B : Type} (draw : rng -> Q * rng) (g : A -> Q -> B)
      (f : A -> rng -> B * rng)
      (Hf : forall a s, f a s = (g a (fst (draw s)), snd (draw s)))
      (l : list A) (s0 : rng) (b : nat) :
  fill f l (Nat.iter b (fun s => snd (draw s)) s0) =
  (map (fun ka => g (snd ka) (fst (draw (Nat.iter (fst ka) (fun s => snd (draw s)) s0))))
       (combine (seq b (length l)) l),
   Nat.iter (b + length l) (fun s => snd (draw s)) s0).
Proof.
  revert b. induction l as [|a l IH]; intros b.
  - cbn [fill length seq combine map]. now rewrite Nat.add_0_r.
  - cbn [fill length seq combine map fst snd]. rewrite Hf.
    change (snd (draw (Nat.iter b (fun s => snd (draw s)) s0)))
      with (Nat.iter (S b) (fun s => snd (draw s)) s0).
    rewrite (IH (S b)). now rewrite Nat.add_succ_r.
Qed.

Lemma fill_stream0 {A B : Type} (draw : rng -> Q * rng) (g : A -> Q -> B)
      (f : A -> rng -> B * rng)
      (Hf : forall a s, f a s = (g a (fst (draw s)), snd (draw s)))
      (l : list A) (s0 : rng) :
  fill f l s0 =
  (map (fun ka => g (snd ka) (fst (draw (Nat.iter (fst ka) (fun s => snd (draw s)) s0))))
       (combine (seq 0 (length l)) l),
   Nat.iter (length l) (fun s => snd (draw s)) s0).
Proof. exact (fill_stream draw g f Hf l s0 0). Qed.

Lemma combine_seq_map {A B : Type} (h : nat -> A -> B) (d : A) (l : list A) (b : nat) :
  map (fun ka => h (fst ka) (snd ka)) (combine (seq b (length l)) l) =
  map (fun j => h (b + j)%nat (nth j l d)) (seq 0 (length l)).
Proof.
  revert b. induction l as [|a l IH]; intros b.
  - reflexivity.
  - cbn [length seq combine map fst snd nth]. rewrite Nat.add_0_r. f_equal.
    rewrite IH, <- seq_shift, map_map.
    apply map_ext. intros j. now rewrite Nat.add_succ_r.
Qed.

Lemma random_uniform_draw (low range : Q) (a : nat) (s : rng) :
  random_uniform low range s =
  ((low + range * fst (next_double s))%Q, snd (next_double s)).
Proof. unfold random_uniform. now destruct (next_double s). Qed.

Lemma legacy_normal_draw (scale loc : Q) (s : rng) :
  legacy_normal loc scale s =
  ((loc + scale * fst (legacy_gauss s))%Q, snd (legacy_gauss s)).
Proof. unfold legacy_normal. now destruct (legacy_gauss s). Qed.

(** [uniform] in closed form. *)
Lemma uniform_spec (low high : Q) (n : nat) (s : rng) :
  uniform low high n s =
  (Arr1 (map (fun j => (low + (high - low) * double_at s j)%Q) (seq 0 n)),
   skip_double n s).
Proof.
  unfold uniform.
  rewrite (fill_stream0 next_double
             (fun (_ : nat) x => (low + (high - low) * x)%Q)
             (fun _ : nat => random_uniform low (high - low)%Q)
             (random_uniform_draw low (high - low)%Q) (seq 0 n) s).
  rewrite (combine_seq_map
             (fun k (_ : nat) => (low + (high - low) * fst (next_double
                  (Nat.iter k (fun s => snd (next_double s)) s)))%Q) 0%nat).
  rewrite length_seq. reflexivity.
Qed.

(** One row of [normal]: the deviates [b], [b+1], ... of the stream, each
    moved by the [loc] of its column. *)
Lemma normal_row_spec (scale : Q) (locs : list Q) (s0 : rng) (b : nat) :
  fill (fun l => legacy_normal l scale) locs (skip_gauss b s0) =
  (map (fun j => (nth j locs 0 + scale * gauss_at s0 (b + j))%Q) (seq 0 (length locs)),
   skip_gauss (b + length locs) s0).
Proof.
  unfold gauss_at, skip_gauss.
  rewrite (fill_stream legacy_gauss (fun l x => (l + scale * x)%Q)
             (fun l => legacy_normal l scale) (legacy_normal_draw scale) locs s0 b).
  f_equal.
  exact (combine_seq_map
           (fun k l => (l + scale * fst (legacy_gauss
                (Nat.iter k (fun s => snd (legacy_gauss s)) s0)))%Q) 0%Q locs b).
Qed.

(** The rows of [normal] are filled in C order. *)
Lemma normal_rows_spec (scale : Q) (locs : list Q) (nr : nat) (s0 : rng) (b : nat) :
  fill (fill (fun l => legacy_normal l scale)) (repeat locs nr) (skip_gauss b s0) =
  (map (fun i => map (fun j => (nth j locs 0
                                + scale * gauss_at s0 (b + i * length locs + j))%Q)
                     (seq 0 (length locs)))
       (seq 0 nr),
   skip_gauss (b + nr * length locs) s0).
Proof.
  revert b. induction nr as [|nr IH]; intros b.
  - cbn [repeat fill seq map Nat.mul]. now rewrite Nat.add_0_r.
  - cbn [repeat fill]. rewrite normal_row_spec, IH.
    cbn [seq map]. f_equal.
    + f_equal.
      * apply map_ext. intros j. now rewrite Nat.mul_0_l, Nat.add_0_r.
      * rewrite <- seq_shift, map_map. apply map_ext. intros i.
        apply map_ext. intros j. do 3 f_equal. cbn [Nat.mul]. lia.
    + f_equal. cbn [Nat.mul]. lia.
Qed.

(** [normal] with a vector [loc] of the width of the output: it does not
    raise, and element [(i, j)] is [loc[j]] plus [scale] times the
    deviate number [i * nc + j]. *)
Lemma normal_spec (scale : Q) (locs : list Q) (nr nc : nat) (s : rng) :
  length locs = nc ->
  normal (Arr1 locs) scale (nr, nc) s =
  Ok (Arr2 nc (map (fun i => map (fun j => (nth j locs 0
                                            + scale * gauss_at s (i * nc + j))%Q)
                                 (seq 0 nc))
                   (seq 0 nr)),
      skip_gauss (nr * nc) s).
Proof.
  intros <-. unfold normal, broadcast_to, broadcast_row.
  rewrite Nat.eqb_refl. cbn [bind].
  pose proof (normal_rows_spec scale locs nr s 0) as E.
  change (skip_gauss 0 s) with s in E. rewrite E. reflexivity.
Qed.

(** The values of [uniform] stay in the half-open interval. *)
Lemma uniform_range (low high : Q) (n : nat) (s : rng) (v : list Q) (s' : rng) :
  (low < high)%Q ->
  uniform low high n s = (Arr1 v, s') ->
  Forall (fun x => (low <= x)%Q /\ (x < high)%Q) v.
Proof.
  intros Hlt E. rewrite uniform_spec in E. injection E as <- _.
  apply Forall_forall. intros x Hx. apply in_map_iff in Hx.
  destruct Hx as [j [<- _]]. unfold double_at.
  destruct (next_double_range (skip_double j s)) as [H0 H1].
  set (d := fst (next_double (skip_double j s))) in *.
  assert (Hr : (0 < high - low)%Q).
  { unfold Qminus. rewrite <- (Qplus_opp_r low).
    apply Qplus_lt_l. exact Hlt. }
  split.
  - rewrite <- (Qplus_0_r low) at 1. apply Qplus_le_r.
    apply Qmult_le_0_compat; [apply Qlt_le_weak; exact Hr | exact H0].
  - assert (Hm : ((high - low) * d < (high - low) * 1)%Q).
    { apply Qmult_lt_l; assumption. }
    apply Qlt_le_trans with (low + (high - low) * 1)%Q.
    + apply Qplus_lt_r. exact Hm.
    + apply Qle_lteq. right. ring.
Qed.

(** Doubles in terms of the raw words of the generator: a double takes two
    words. *)
Lemma next_double_words (s : rng) :
  next_double s = (unit_double (word_at s 0) (word_at s 1), skip_word 2 s).
Proof.
  unfold next_double, word_at, skip_word. cbn [Nat.iter nat_rect].
  destruct (next_uint32 s) as [x s1]. cbn [fst snd].
  destruct (next_uint32 s1) as [y s2]. reflexivity.
Qed.

Lemma skip_word_add (a b : nat) (s : rng) :
  skip_word (a + b) s = skip_word a (skip_word b s).
Proof. unfold skip_word. now rewrite Nat.iter_add. Qed.

Lemma skip_double_words (k : nat) (s : rng) :
  skip_double k s = skip_word (2 * k) s.
Proof.
  induction k as [|k IH]; [reflexivity|].
  change (skip_double (S k) s) with (snd (next_double (skip_double k s))).
  rewrite next_double_words, IH. cbn [snd].
  rewrite <- skip_word_add. f_equal. lia.
Qed.

Lemma double_at_words (s : rng) (k : nat) :
  double_at s k = unit_double (word_at s (2 * k)) (word_at s (2 * k + 1)).
Proof.
  unfold double_at. rewrite next_double_words, skip_double_words. cbn [fst].
  unfold word_at. rewrite <- !skip_word_add.
  now replace (1 + 2 * k)%nat with (2 * k + 1)%nat by lia.
Qed.

End SamplingFacts.

(** The numerator of a double takes each of the 2^53 values in [0, 2^53),
    and it takes each of them for equally many pairs of 32-bit words: a
    pair of words is the same thing as a numerator together with the 5 and
    6 low bits that the shifts drop. *)
Lemma mantissa_range (x y : Z) : 0 <= mantissa x y < 2 ^ 53.
Proof.
  unfold mantissa. rewrite !Z.shiftr_div_pow2 by lia.
  change (2 ^ 5) with 32. change (2 ^ 6) with 64.
  change (2 ^ 26) with 67108864. change (2 ^ 32) with 4294967296.
  change (2 ^ 53) with 9007199254740992.
  pose proof (Z.mod_pos_bound x 4294967296 ltac:(lia)).
  pose proof (Z.mod_pos_bound y 4294967296 ltac:(lia)).
  Z.div_mod_to_equations. lia.
Qed.

Lemma mantissa_of_words (m lo5 lo6 : Z) :
  let m' := m mod 2 ^ 53 in
  let x := m' / 2 ^ 26 * 32 + lo5 mod 32 in
  let y := m' mod 2 ^ 26 * 64 + lo6 mod 64 in
  (0 <= x < 2 ^ 32 /\ 0 <= y < 2 ^ 32) /\
  mantissa x y = m' /\ x mod 32 = lo5 mod 32 /\ y mod 64 = lo6 mod 64.
Proof.
  cbv zeta. unfold mantissa. rewrite !Z.shiftr_div_pow2 by lia.
  change (2 ^ 5) with 32. change (2 ^ 6) with 64.
  change (2 ^ 26) with 67108864. change (2 ^ 32) with 4294967296.
  change (2 ^ 53) with 9007199254740992.
  pose proof (Z.mod_pos_bound m 9007199254740992 ltac:(lia)).
  Z.div_mod_to_equations. lia.
Qed.

Lemma words_of_mantissa (x y : Z) :
  x mod 2 ^ 32 = mantissa x y / 2 ^ 26 * 32 + (x mod 2 ^ 32) mod 32 /\
  y mod 2 ^ 32 = mantissa x y mod 2 ^ 26 * 64 + (y mod 2 ^ 32) mod 64.
Proof.
  unfold mantissa. rewrite !Z.shiftr_div_pow2 by lia.
  change (2 ^ 5) with 32. change (2 ^ 6) with 64.
  change (2 ^ 26) with 67108864. change (2 ^ 32) with 4294967296.
  Z.div_mod_to_equations. lia.
Qed.

(** ** The data cell *)

Section DataCell.

Context {rng : Type} `{BitGenerator rng} `{Backend}.

Lemma cell_1_imported (k : Kernel rng) :
  exists k1, cell_1 k = Ok k1 /\ imported k1 = true /\
             np_random k1 = np_random k /\ stdout k1 = stdout k /\
             fig k1 = fig k /\ filesize k1 = filesize k.
Proof. eexists. split; [reflexivity|]. cbn. repeat split. Qed.

(** Cell 3 in closed form: it never raises once the imports are done. *)
Lemma cell_3_spec (k : Kernel rng) :
  imported k = true ->
  let s0 := np_random k in
  let s1 := skip_double 256 s0 in
  let s2 := skip_gauss (1000 * 256) s1 in
  let offsets := map (fun j => (-10 + (10 - -10) * double_at s0 j)%Q) (seq 0 256) in
  cell_3 k =
  Ok {| imported := true;
        np_random := skip_double 1000 s2;
        data := Some (Arr2 256
                  (map (fun i => map (fun j => (nth j offsets 0
                                                + 1 * gauss_at s1 (i * 256 + j))%Q)
                                     (seq 0 256))
                       (seq 0 1000)));
        other_line := Some (Arr1 (map (fun i => (0 + (1 - 0) * double_at s2 i)%Q)
                                      (seq 0 1000)));
        fig := fig k;
        filesize := filesize k;
        stdout := stdout k |}.
Proof.
  intros Himp s0 s1 s2 offsets.
  unfold cell_3, need_import. rewrite Himp. unfold bind at 1.
  rewrite uniform_spec. cbv beta iota.
  rewrite (normal_spec 1 _ 1000 256) by (now rewrite length_map, length_seq).
  unfold bind. cbv beta iota.
  rewrite uniform_spec. reflexivity.
Qed.

End DataCell.

(** ** Lines, axes and drawing *)

Lemma make_lines_length (kw : LineProps) (p : nat) (ys : list (list Q)) :
  length (fst (make_lines kw p ys)) = length ys.
Proof.
  revert p. induction ys as [|y ys IH]; intros p; cbn [make_lines].
  - reflexivity.
  - destruct (make_line kw p y) as [l p1]. specialize (IH p1).
    destruct (make_lines kw p1 ys) as [ls p2]. cbn [fst length] in *. now rewrite IH.
Qed.

Lemma make_line_made_from (kw : LineProps) (p : nat) (y : list Q) :
  made_from kw (fst (make_line kw p y)) /\ ydata (fst (make_line kw p y)) = y.
Proof.
  unfold make_line, made_from.
  destruct (kw_color kw) as [name|]; cbn; repeat split; eauto.
Qed.

Lemma make_lines_made_from (kw : LineProps) (p : nat) (ys : list (list Q)) :
  Forall (made_from kw) (fst (make_lines kw p ys)) /\
  map ydata (fst (make_lines kw p ys)) = ys.
Proof.
  revert p. induction ys as [|y ys IH]; intros p; cbn [make_lines].
  - split; [constructor | reflexivity].
  - pose proof (make_line_made_from kw p y) as [Hl Hy].
    destruct (make_line kw p y) as [l p1]. specialize (IH p1).
    destruct (make_lines kw p1 ys) as [ls p2]. cbn [fst map] in *.
    destruct IH as [IH1 IH2]. split; [now constructor | now rewrite Hy, IH2].
Qed.

(** Putting the rasterization settings back commutes with making lines. *)
Lemma make_lines_unrasterized (kw : LineProps) (p : nat) (ys : list (list Q)) :
  make_lines (default_rasterization kw) p ys =
  (map unrasterized_line (fst (make_lines kw p ys)), snd (make_lines kw p ys)).
Proof.
  revert p. induction ys as [|y ys IH]; intros p; cbn [make_lines].
  - reflexivity.
  - assert (E : make_line (default_rasterization kw) p y =
                (unrasterized_line (fst (make_line kw p y)), snd (make_line kw p y))).
    { unfold make_line. cbn [default_rasterization kw_color kw_marker kw_linewidth
                             kw_alpha kw_zorder kw_rasterized].
      destruct (kw_color kw); reflexivity. }
    rewrite E. destruct (make_line kw p y) as [l p1]. cbn [fst snd].
    rewrite (IH p1). destruct (make_lines kw p1 ys) as [ls p2]. reflexivity.
Qed.

Lemma plot_unrasterized (y : ndarray) (kw : LineProps) (ax : Axes) :
  unrasterized_axes (plot y kw ax) =
  plot y (default_rasterization kw) (unrasterized_axes ax).
Proof.
  unfold plot. cbn [unrasterized_axes prop_cycle_pos lines rasterization_zorder].
  rewrite make_lines_unrasterized.
  destruct (make_lines kw (prop_cycle_pos ax) _) as [new pos].
  unfold unrasterized_axes. cbn [lines prop_cycle_pos fst snd].
  now rewrite map_app.
Qed.

Lemma set_rasterization_zorder_unrasterized (z : Z) (ax : Axes) :
  unrasterized_axes (set_rasterization_zorder z ax) = unrasterized_axes ax.
Proof. reflexivity. Qed.

(** A list that is already in zorder is left as it is. *)
Lemma sorted_by_zorder_traces_then_reference (traces : list Line2D) (ref : Line2D) (z : Z) :
  Forall (fun l => zorder l = z) traces ->
  z <= zorder ref ->
  sorted_by_zorder (traces ++ [ref]) = traces ++ [ref].
Proof.
  intros Hall Hle. induction Hall as [|a t Ha Ht IH].
  - reflexivity.
  - cbn [app sorted_by_zorder fold_right].
    change (fold_right insert_by_zorder [] (t ++ [ref]))
      with (sorted_by_zorder (t ++ [ref])).
    rewrite IH. destruct Ht as [|b t' Hb Ht']; cbn [app insert_by_zorder].
    + destruct (Z.leb_spec (zorder a) (zorder ref)); [reflexivity | lia].
    + destruct (Z.leb_spec (zorder a) (zorder b)); [reflexivity | lia].
Qed.

Lemma filter_all {A : Type} (f : A -> bool) (l : list A) :
  Forall (fun a => f a = true) l -> filter f l = l.
Proof.
  induction 1 as [|a l Ha _ IH]; cbn [filter]; [reflexivity|].
  now rewrite Ha, IH.
Qed.

Lemma filter_none {A : Type} (f : A -> bool) (l : list A) :
  Forall (fun a => f a = false) l -> filter f l = [].
Proof.
  induction 1 as [|a l Ha _ IH]; cbn [filter]; [reflexivity|].
  now rewrite Ha, IH.
Qed.

(** The lines of a figure built by [figure_of] from a matrix and a vector:
    one trace per column, then the reference line. *)
Lemma figure_of_lines (kt kr : LineProps) (rz : option Z)
      (ncols : nat) (rows : list (list Q)) (v : list Q) :
  exists traces ref,
    lines (axes (figure_of kt kr rz (Arr2 ncols rows) (Arr1 v))) = traces ++ [ref] /\
    rasterization_zorder (axes (figure_of kt kr rz (Arr2 ncols rows) (Arr1 v))) = rz /\
    Forall (made_from kt) traces /\ map ydata traces = columns ncols rows /\
    made_from kr ref /\ ydata ref = v.
Proof.
  pose proof (make_lines_made_from kt 0 (columns ncols rows)) as [Ht Hy].
  assert (E1 : exists pos,
             plot (Arr2 ncols rows) kt (axes subplots) =
             {| lines := fst (make_lines kt 0 (columns ncols rows));
                rasterization_zorder := None;
                prop_cycle_pos := pos |}).
  { unfold plot. cbn [subplots axes prop_cycle_pos lines rasterization_zorder app].
    destruct (make_lines kt 0 (columns ncols rows)) as [new pos].
    exists pos. reflexivity. }
  destruct E1 as [pos E1].
  set (traces := fst (make_lines kt 0 (columns ncols rows))) in *.
  pose proof (make_line_made_from kr pos v) as [Hr Hv].
  exists traces, (fst (make_line kr pos v)).
  unfold figure_of. rewrite E1.
  destruct rz as [z|];
    unfold plot, set_rasterization_zorder;
    cbn [axes make_lines lines prop_cycle_pos rasterization_zorder];
    destruct (make_line kr pos v) as [l p'];
    cbn [lines rasterization_zorder fst] in *;
    (split; [reflexivity|]); (split; [reflexivity|]); (split; [exact Ht|]);
    (split; [exact Hy|]); (split; [exact Hr | exact Hv]).
Qed.

(** *** Stable sorting *)

Lemma insert_by_zorder_perm (a : Line2D) (l : list Line2D) :
  Permutation (insert_by_zorder a l) (a :: l).
Proof.
  induction l as [|b l IH]; cbn [insert_by_zorder].
  - apply Permutation_refl.
  - destruct (zorder a <=? zorder b).
    + apply Permutation_refl.
    + apply perm_trans with (b :: a :: l); [now apply perm_skip | apply perm_swap].
Qed.

Lemma sorted_by_zorder_perm (l : list Line2D) :
  Permutation (sorted_by_zorder l) l.
Proof.
  induction l as [|a l IH]; cbn [sorted_by_zorder fold_right].
  - apply perm_nil.
  - eapply perm_trans; [apply insert_by_zorder_perm | now apply perm_skip].
Qed.

Lemma insert_by_zorder_sorted (a : Line2D) (l : list Line2D) :
  StronglySorted zorder_le l -> StronglySorted zorder_le (insert_by_zorder a l).
Proof.
  induction 1 as [|b l Hs IH Hb]; cbn [insert_by_zorder].
  - repeat constructor.
  - destruct (Z.leb_spec (zorder a) (zorder b)) as [Hab|Hba].
    + constructor; [now constructor|]. constructor; [exact Hab|].
      eapply Forall_impl; [|exact Hb]. unfold zorder_le. intros c Hc. lia.
    + constructor; [exact IH|].
      apply (Permutation_Forall (Permutation_sym (insert_by_zorder_perm a l))).
      constructor; [unfold zorder_le; lia | exact Hb].
Qed.

Lemma sorted_by_zorder_sorted (l : list Line2D) :
  StronglySorted zorder_le (sorted_by_zorder l).
Proof.
  induction l as [|a l IH]; cbn [sorted_by_zorder fold_right].
  - constructor.
  - now apply insert_by_zorder_sorted.
Qed.

Lemma insert_by_zorder_lowest (x : Line2D) (l : list Line2D) :
  Forall (fun y => zorder x <= zorder y) l -> insert_by_zorder x l = x :: l.
Proof.
  intros Hall. destruct Hall as [|y l Hy _]; cbn [insert_by_zorder].
  - reflexivity.
  - destruct (Z.leb_spec (zorder x) (zorder y)); [reflexivity | lia].
Qed.

Lemma insert_artist_Forall (P : Artist -> Prop) (a : Artist) (l : list Artist) :
  P a -> Forall P l -> Forall P (insert_artist a l).
Proof.
  intros Ha Hl. induction Hl as [|b l Hb Hl IH]; cbn [insert_artist].
  - now repeat constructor.
  - destruct (zorder2 a <=? zorder2 b); repeat constructor; assumption.
Qed.

Lemma insert_artist_sorted (a : Artist) (l : list Artist) :
  StronglySorted zorder2_le l -> StronglySorted zorder2_le (insert_artist a l).
Proof.
  induction 1 as [|b l Hs IH Hb]; cbn [insert_artist].
  - repeat constructor.
  - destruct (Z.leb_spec (zorder2 a) (zorder2 b)) as [Hab|Hba].
    + constructor; [now constructor|]. constructor; [exact Hab|].
      eapply Forall_impl; [|exact Hb]. unfold zorder2_le. intros c Hc. lia.
    + constructor; [exact IH|].
      apply insert_artist_Forall; [unfold zorder2_le; lia | exact Hb].
Qed.

Lemma sorted_artists_sorted (l : list Artist) :
  StronglySorted zorder2_le (sorted_artists l).
Proof.
  induction l as [|a l IH]; cbn [sorted_artists fold_right].
  - constructor.
  - now apply insert_artist_sorted.
Qed.

Lemma lines_of_bound (z : Z) (l : list Artist) :
  Forall (fun b => 2 * z <= zorder2 b) l ->
  Forall (fun y => z <= zorder y) (flat_map lines_of l).
Proof.
  induction 1 as [|b l Hb _ IH]; cbn [flat_map].
  - constructor.
  - destruct b as [y|name z2]; cbn [lines_of app zorder2] in *; [|exact IH].
    constructor; [lia | exact IH].
Qed.

(** Sorting all children and keeping the lines gives the lines in stable
    zorder. *)
Lemma lines_of_insert_artist (a : Artist) (l : list Artist) :
  StronglySorted zorder2_le l ->
  flat_map lines_of (insert_artist a l) =
  match a with
  | ALine x => insert_by_zorder x (flat_map lines_of l)
  | AOwn _ _ => flat_map lines_of l
  end.
Proof.
  induction 1 as [|b l Hs IH Hb]; cbn [insert_artist].
  - now destruct a.
  - destruct (Z.leb_spec (zorder2 a) (zorder2 b)) as [Hab|Hba].
    + destruct a as [x|name z2]; cbn [flat_map lines_of app]; [|reflexivity].
      symmetry. apply insert_by_zorder_lowest.
      apply (lines_of_bound (zorder x) (b :: l)).
      cbn [zorder2] in Hab. constructor; [exact Hab|].
      eapply Forall_impl; [|exact Hb]. unfold zorder2_le. intros c Hc. lia.
    + cbn [flat_map]. fold (flat_map lines_of (insert_artist a l)). rewrite IH.
      destruct a as [x|name z2]; [|reflexivity].
      destruct b as [y|name z2]; cbn [lines_of app zorder2] in *; [|reflexivity].
      cbn [insert_by_zorder].
      destruct (Z.leb_spec (zorder x) (zorder y)); [lia | reflexivity].
Qed.

Lemma lines_of_sorted_artists (l : list Artist) :
  flat_map lines_of (sorted_artists l) = sorted_by_zorder (flat_map lines_of l).
Proof.
  induction l as [|a l IH]; [reflexivity|].
  cbn [sorted_artists fold_right]. fold (sorted_artists l).
  rewrite (lines_of_insert_artist a _ (sorted_artists_sorted l)), IH.
  now destruct a.
Qed.

Lemma lines_of_lines (l : list Line2D) : flat_map lines_of (map ALine l) = l.
Proof. induction l as [|x l IH]; cbn [map flat_map lines_of app]; congruence. Qed.

Lemma lines_of_get_children (ax : Axes) :
  flat_map lines_of (get_children ax) = lines ax.
Proof.
  unfold get_children. rewrite flat_map_app, lines_of_lines. apply app_nil_r.
Qed.

(** Cutting the children in zorder at a threshold gives a prefix and the
    rest. *)
Lemma artists_split_at (r : Z) (l : list Artist) :
  StronglySorted zorder2_le l ->
  filter (fun a => zorder2 a <=? r) l ++ filter (fun a => r <? zorder2 a) l = l.
Proof.
  induction 1 as [|a l Hs IH Ha].
  - reflexivity.
  - destruct (Z.leb_spec (zorder2 a) r) as [Hle|Hgt].
    + cbn [filter]. destruct (Z.leb_spec (zorder2 a) r); [|lia].
      destruct (Z.ltb_spec r (zorder2 a)); [lia|].
      cbn [app]. now rewrite IH.
    + rewrite (filter_none (fun b => zorder2 b <=? r) (a :: l)).
      2:{ constructor; [apply Z.leb_gt; lia|].
          eapply Forall_impl; [|exact Ha]. unfold zorder2_le. intros b Hb.
          apply Z.leb_gt. lia. }
      rewrite (filter_all (fun b => r <? zorder2 b) (a :: l)); [reflexivity|].
      constructor; [apply Z.ltb_lt; lia|].
      eapply Forall_impl; [|exact Ha]. unfold zorder2_le. intros b Hb.
      apply Z.ltb_lt. lia.
Qed.

(** *** Painting *)

Lemma drawn_lines_app (ops1 ops2 : list DrawOp) :
  drawn_lines (ops1 ++ ops2) = drawn_lines ops1 ++ drawn_lines ops2.
Proof. apply flat_map_app. Qed.

Lemma drawn_lines_vector (l : list Line2D) : drawn_lines (map VectorPath l) = l.
Proof. induction l as [|x l IH]; cbn [map drawn_lines flat_map app]; [|fold (drawn_lines (map VectorPath l))]; congruence. Qed.

(** Every line handed to [paint] is painted once, in the order given,
    after the lines already on the open image. *)
Lemma drawn_lines_paint (image : option (list Line2D)) (artists : list Artist) :
  drawn_lines (paint image artists) =
  from_option [] image ++ flat_map lines_of artists.
Proof.
  revert image. induction artists as [|a rest IH]; intros image; cbn [paint flat_map].
  - destruct image; cbn [drawn_lines flat_map from_option app]; now rewrite ?app_nil_r.
  - destruct (get_rasterized a).
    + rewrite IH. cbn [from_option]. now rewrite app_assoc.
    + rewrite !drawn_lines_app, drawn_lines_vector, IH. cbn [from_option app].
      destruct image; cbn [drawn_lines flat_map from_option app];
        now rewrite ?app_nil_r.
Qed.

(** The lines painted by [draw] are the lines of the axes in stable
    zorder. *)
Lemma drawn_lines_draw (ax : Axes) :
  drawn_lines (draw ax) = sorted_by_zorder (lines ax).
Proof.
  rewrite <- (lines_of_get_children ax), <- lines_of_sorted_artists.
  unfold draw.
  pose proof (sorted_artists_sorted (get_children ax)) as Hs.
  set (arts := sorted_artists (get_children ax)) in *.
  assert (Hnone : drawn_lines (paint None (patch :: arts)) = flat_map lines_of arts).
  { now rewrite drawn_lines_paint. }
  destruct (rasterization_zorder ax) as [rz|]; [|exact Hnone].
  destruct arts as [|first rest] eqn:Earts; [exact Hnone|].
  destruct (zorder2 first <? 2 * rz); [|exact Hnone].
  pose proof (f_equal (flat_map lines_of)
                (artists_split_at (2 * rz) (first :: rest) Hs)) as E.
  rewrite flat_map_app in E. rewrite <- E.
  destruct (filter (fun a => zorder2 a <=? 2 * rz) (first :: rest)) as [|g gs].
  - now rewrite drawn_lines_paint.
  - rewrite drawn_lines_paint. reflexivity.
Qed.

(** *** The children of the figures of the notebook, in zorder *)

Lemma sorted_own_children :
  sorted_artists own_children = axis_objects ++ spines ++ titles.
Proof. reflexivity. Qed.

Lemma sorted_reference_and_own (ref : Line2D) :
  zorder ref = 2 ->
  sorted_artists (ALine ref :: own_children) =
  axis_objects ++ ALine ref :: spines ++ titles.
Proof.
  intros Hz. cbn [sorted_artists fold_right]. fold (sorted_artists own_children).
  rewrite sorted_own_children.
  cbn [axis_objects spines titles app insert_artist zorder2]. rewrite Hz.
  reflexivity.
Qed.

Lemma sorted_artists_app (l1 l2 : list Artist) :
  sorted_artists (l1 ++ l2) = fold_right insert_artist (sorted_artists l2) l1.
Proof. apply fold_right_app. Qed.

(** Traces below the axis objects come first. *)
Lemma sorted_children_low (traces : list Line2D) (ref : Line2D) (zt : Z) :
  Forall (fun l => zorder l = zt) traces -> zt <= 1 -> zorder ref = 2 ->
  sorted_artists (map ALine (traces ++ [ref]) ++ own_children) =
  map ALine traces ++ axis_objects ++ ALine ref :: spines ++ titles.
Proof.
  intros Ht Hzt Hzr.
  rewrite map_app, <- app_assoc, sorted_artists_app.
  cbn [map app]. rewrite (sorted_reference_and_own ref Hzr).
  induction Ht as [|t ts Hz Hts IH]; [reflexivity|].
  cbn [map fold_right]. rewrite IH.
  destruct Hts as [|t' ts' Hz' _];
    cbn [map app axis_objects insert_artist zorder2].
  - destruct (Z.leb_spec (2 * zorder t) 3); [reflexivity | lia].
  - destruct (Z.leb_spec (2 * zorder t) (2 * zorder t')); [reflexivity | lia].
Qed.

(** Traces at the default zorder come after the axis objects and before
    the reference line, which was added after them. *)
Lemma sorted_children_default (traces : list Line2D) (ref : Line2D) :
  Forall (fun l => zorder l = 2) traces -> zorder ref = 2 ->
  sorted_artists (map ALine (traces ++ [ref]) ++ own_children) =
  axis_objects ++ map ALine traces ++ ALine ref :: spines ++ titles.
Proof.
  intros Ht Hzr.
  rewrite map_app, <- app_assoc, sorted_artists_app.
  cbn [map app]. rewrite (sorted_reference_and_own ref Hzr).
  induction Ht as [|t ts Hz Hts IH]; [reflexivity|].
  cbn [map fold_right]. rewrite IH.
  destruct Hts as [|t' ts' Hz' _];
    cbn [axis_objects map app insert_artist zorder2].
  - rewrite Hz, Hzr. reflexivity.
  - rewrite Hz, Hz'. reflexivity.
Qed.

Lemma paint_vector_lines (ts : list Line2D) (rest : list Artist) :
  Forall (fun l => rasterized l = false) ts ->
  paint None (map ALine ts ++ rest) = map VectorPath ts ++ paint None rest.
Proof.
  induction 1 as [|t ts Ht _ IH]; [reflexivity|].
  cbn [map app paint get_rasterized lines_of]. now rewrite Ht, IH.
Qed.

Lemma paint_raster_lines (g ts : list Line2D) (rest : list Artist) :
  Forall (fun l => rasterized l = true) ts ->
  paint (Some g) (map ALine ts ++ rest) = paint (Some (g ++ ts)) rest.
Proof.
  intros Hts. revert g. induction Hts as [|t ts Ht _ IH]; intros g.
  - now rewrite app_nil_r.
  - cbn [map app paint get_rasterized lines_of from_option]. rewrite Ht, IH.
    now rewrite <- app_assoc.
Qed.

(** *** What [draw] hands to the backend for traces followed by a
    reference line at the default zorder *)

Lemma draw_plain (ax : Axes) (traces : list Line2D) (ref : Line2D) :
  lines ax = traces ++ [ref] -> rasterization_zorder ax = None ->
  Forall (fun l => zorder l = 2) traces ->
  Forall (fun l => rasterized l = false) traces ->
  zorder ref = 2 -> rasterized ref = false ->
  draw ax = map VectorPath traces ++ [VectorPath ref].
Proof.
  intros El Ez Hz Hr Hzr Hrr. unfold draw, get_children.
  rewrite El, Ez, (sorted_children_default traces ref Hz Hzr).
  cbn [axis_objects app patch paint get_rasterized lines_of map].
  rewrite (paint_vector_lines traces _ Hr). f_equal.
  cbn [paint get_rasterized lines_of map app]. rewrite Hrr. reflexivity.
Qed.

Lemma draw_rasterized_traces (ax : Axes) (traces : list Line2D) (ref : Line2D) :
  lines ax = traces ++ [ref] -> rasterization_zorder ax = None ->
  traces <> [] ->
  Forall (fun l => zorder l = 2) traces ->
  Forall (fun l => rasterized l = true) traces ->
  zorder ref = 2 -> rasterized ref = false ->
  draw ax = [RasterImage traces; VectorPath ref].
Proof.
  intros El Ez Hne Hz Hr Hzr Hrr. unfold draw, get_children.
  rewrite El, Ez, (sorted_children_default traces ref Hz Hzr).
  cbn [axis_objects app patch paint get_rasterized lines_of map].
  destruct traces as [|t ts]; [congruence|].
  assert (Ht : rasterized t = true) by (now inversion Hr).
  assert (Hts : Forall (fun l => rasterized l = true) ts) by (now inversion Hr).
  cbn [map app paint get_rasterized lines_of from_option]. rewrite Ht.
  rewrite (paint_raster_lines [t] ts _ Hts).
  cbn [paint get_rasterized lines_of map app]. rewrite Hrr. reflexivity.
Qed.

Lemma filter_lines_all (P : Artist -> bool) (ts : list Line2D) :
  Forall (fun l => P (ALine l) = true) ts ->
  filter P (map ALine ts) = map ALine ts.
Proof.
  intros Hall. apply filter_all. apply Forall_forall. intros a Ha.
  apply in_map_iff in Ha. destruct Ha as [l [<- Hl]].
  rewrite Forall_forall in Hall. now apply Hall.
Qed.

Lemma filter_lines_none (P : Artist -> bool) (ts : list Line2D) :
  Forall (fun l => P (ALine l) = false) ts ->
  filter P (map ALine ts) = [].
Proof.
  intros Hall. apply filter_none. apply Forall_forall. intros a Ha.
  apply in_map_iff in Ha. destruct Ha as [l [<- Hl]].
  rewrite Forall_forall in Hall. now apply Hall.
Qed.

Lemma paint_own (image : option (list Line2D)) (name : string) (z2 : Z)
      (rest : list Artist) :
  paint image (AOwn name z2 :: rest) =
  match image with
  | Some g => [RasterImage g]
  | None => []
  end ++ paint None rest.
Proof. reflexivity. Qed.

Ltac decide_comparisons :=
  repeat match goal with
         | |- context [?a <=? ?b] => destruct (Z.leb_spec a b); try lia
         | |- context [?a <? ?b] => destruct (Z.ltb_spec a b); try lia
         end.

(** The three regimes of a rasterization zorder [rz] for traces that share
    a zorder [zt] below the axis objects and a reference line at the
    default zorder, none of them flagged [rasterized]: at or below [zt]
    nothing is rasterized; up to 1 the traces are; from 2 on, the zorder of
    the reference line, all lines are. *)
Lemma draw_threshold_regimes (ax : Axes) (traces : list Line2D) (ref : Line2D)
      (zt rz : Z) :
  lines ax = traces ++ [ref] ->
  rasterization_zorder ax = Some rz ->
  traces <> [] ->
  Forall (fun l => zorder l = zt) traces -> zt <= 1 -> zorder ref = 2 ->
  Forall (fun l => rasterized l = false) (traces ++ [ref]) ->
  draw ax =
  if rz <=? zt then map VectorPath (traces ++ [ref])
  else if rz <=? 1 then [RasterImage traces; VectorPath ref]
  else [RasterImage (traces ++ [ref])].
Proof.
  intros El Ez Hne Ht Hzt Hzr Hr.
  apply Forall_app in Hr. destruct Hr as [Hrt Hrr].
  assert (Hrr' : rasterized ref = false) by (now inversion Hrr).
  unfold draw, get_children.
  rewrite El, Ez, (sorted_children_low traces ref zt Ht Hzt Hzr).
  destruct traces as [|t ts]; [congruence|].
  assert (Hzt' : zorder t = zt) by (now inversion Ht).
  cbn [map app zorder2]. rewrite Hzt'.
  change (ALine t :: map ALine ts ++ axis_objects ++ ALine ref :: spines ++ titles)
    with (map ALine (t :: ts) ++ axis_objects ++ ALine ref :: spines ++ titles).
  destruct (Z.leb_spec rz zt) as [H1|H1].
  - destruct (Z.ltb_spec (2 * zt) (2 * rz)); [lia|].
    unfold patch. rewrite paint_own. cbn [app].
    rewrite (paint_vector_lines (t :: ts) _ Hrt), map_app. f_equal.
    cbn [axis_objects app paint get_rasterized lines_of map]. rewrite Hrr'.
    reflexivity.
  - destruct (Z.ltb_spec (2 * zt) (2 * rz)); [|lia].
    rewrite !filter_app.
    rewrite (filter_lines_all (fun a => zorder2 a <=? 2 * rz) (t :: ts)).
    2:{ eapply Forall_impl; [|exact Ht]. cbn beta. intros l E. cbn [zorder2].
        apply Z.leb_le. lia. }
    rewrite (filter_lines_none (fun a => 2 * rz <? zorder2 a) (t :: ts)).
    2:{ eapply Forall_impl; [|exact Ht]. cbn beta. intros l E. cbn [zorder2].
        apply Z.ltb_ge. lia. }
    cbn [axis_objects spines titles app filter zorder2 map]. rewrite Hzr.
    destruct (Z.leb_spec rz 1) as [H2|H2].
    + decide_comparisons. rewrite !app_nil_r.
      change (ALine t :: map ALine ts) with (map ALine (t :: ts)).
      unfold patch at 1. cbn [flat_map lines_of]. rewrite lines_of_lines.
      cbn [app paint get_rasterized lines_of map from_option]. rewrite Hrr'.
      reflexivity.
    + destruct (Z.leb_spec 5 (2 * rz)) as [H3|H3].
      * decide_comparisons.
        change (ALine t :: map ALine ts) with (map ALine (t :: ts)).
        unfold patch at 1. cbn [flat_map lines_of].
        rewrite flat_map_app, lines_of_lines. reflexivity.
      * decide_comparisons.
        change (ALine t :: map ALine ts) with (map ALine (t :: ts)).
        unfold patch at 1. cbn [flat_map lines_of].
        rewrite flat_map_app, lines_of_lines. reflexivity.
Qed.

(** Cell 9: the traces at zorder -10 with the rasterization zorder 0. *)
Lemma draw_with_threshold (ax : Axes) (traces : list Line2D) (ref : Line2D) :
  lines ax = traces ++ [ref] ->
  rasterization_zorder ax = Some 0 ->
  traces <> [] ->
  Forall (fun l => zorder l = -10) traces -> zorder ref = 2 ->
  Forall (fun l => rasterized l = false) (traces ++ [ref]) ->
  draw ax = [RasterImage traces; VectorPath ref].
Proof.
  intros El Ez Hne Ht Hzr Hr.
  exact (draw_threshold_regimes ax traces ref (-10) 0 El Ez Hne Ht ltac:(lia) Hzr Hr).
Qed.

(** ** The plotting cells *)

Section PlottingCells.

Context {rng : Type} `{BitGenerator rng} `{Backend}.

Lemma cell_5_spec (k : Kernel rng) (d o : ndarray) :
  imported k = true -> data k = Some d -> other_line k = Some o ->
  let f := figure_of
             {| kw_marker := Some ""; kw_linewidth := Some 1%Q;
                kw_alpha := Some (1 # 2); kw_color := None;
                kw_zorder := None; kw_rasterized := None |}
             {| kw_marker := Some ""; kw_linewidth := None;
                kw_alpha := None; kw_color := Some "k";
                kw_zorder := None; kw_rasterized := None |}
             None d o in
  cell_5 k = Ok (report k f (measure f)).
Proof.
  intros Hi Hd Ho. unfold cell_5, need_import. now rewrite Hi, Hd, Ho.
Qed.

Lemma cell_7_spec (k : Kernel rng) (d o : ndarray) :
  imported k = true -> data k = Some d -> other_line k = Some o ->
  let f := figure_of
             {| kw_marker := Some ""; kw_linewidth := Some 1%Q;
                kw_alpha := Some (1 # 2); kw_color := None;
                kw_zorder := None; kw_rasterized := Some true |}
             {| kw_marker := Some ""; kw_linewidth := None;
                kw_alpha := None; kw_color := Some "k";
                kw_zorder := None; kw_rasterized := None |}
             None d o in
  cell_7 k = Ok (report k f (measure f)).
Proof.
  intros Hi Hd Ho. unfold cell_7, need_import. now rewrite Hi, Hd, Ho.
Qed.

Lemma cell_9_spec (k : Kernel rng) (d o : ndarray) :
  imported k = true -> data k = Some d -> other_line k = Some o ->
  let f := figure_of
             {| kw_marker := Some ""; kw_linewidth := Some 1%Q;
                kw_alpha := Some (1 # 2); kw_color := None;
                kw_zorder := Some (-10); kw_rasterized := None |}
             {| kw_marker := Some ""; kw_linewidth := None;
                kw_alpha := None; kw_color := Some "k";
                kw_zorder := None; kw_rasterized := None |}
             (Some 0) d o in
  cell_9 k = Ok (report k f (measure f)).
Proof.
  intros Hi Hd Ho. unfold cell_9, need_import. now rewrite Hi, Hd, Ho.
Qed.

End PlottingCells.

(** ** Units *)

Lemma Qmult_1_l_eq (x : Q) : (1 * x)%Q = x.
Proof. destruct x as [n d]. unfold Qmult. cbn. now destruct n. Qed.

Lemma unit_eqb_refl (a : u.Unit) : u.eqb a a = true.
Proof. now destruct a. Qed.

(** Converting to the unit a quantity already has changes nothing. *)
Lemma to_same_unit (q : Quantity) : to q (unit q) = q.
Proof.
  destruct q as [x a]. unfold to, u._to. cbn [unit value].
  now rewrite unit_eqb_refl, Qmult_1_l_eq.
Qed.

Lemma to_idempotent (q : Quantity) (a : u.Unit) : to (to q a) a = to q a.
Proof. exact (to_same_unit (to q a)). Qed.

Lemma to_megabyte_value (n : Z) :
  (value (to (int_mul_unit n u.byte) u.megabyte) == inject_Z n / 1000000)%Q.
Proof.
  unfold to, int_mul_unit, u._to. cbn [unit value u.eqb u.scale]. field.
Qed.

(** In exact arithmetic the size in megabytes times 1,000,000 is the byte
    count; the statement leaves room for the rounding of binary64, whose
    conversion factor and product each carry a relative error of at most
    2^-53. *)
Lemma to_megabyte_close (n : Z) :
  0 <= n ->
  (Qabs (value (to (int_mul_unit n u.byte) u.megabyte) * 1000000 - inject_Z n)
   <= inject_Z n * (1 # 2251799813685248))%Q.
Proof.
  intros Hn.
  assert (E : (value (to (int_mul_unit n u.byte) u.megabyte) * 1000000
               - inject_Z n == 0)%Q).
  { rewrite to_megabyte_value. field. }
  rewrite E. change (Qabs 0) with 0%Q.
  apply Qmult_le_0_compat; [|discriminate].
  unfold Qle. cbn [Qnum Qden inject_Z]. lia.
Qed.

(** C2: the conversion of a byte count [n] to megabytes is decimal: the
    result carries the unit megabyte, whose scale is 1,000,000 times that
    of the byte (and not 1,048,576 times: that is the mebibyte), and its
    value times 1,000,000 is [n] up to the rounding of binary64 (relative
    error at most 2^-51).  Converting the resulting megabyte quantity to
    megabytes again gives the same quantity back. *)
Theorem to_megabyte_idempotent (n : nat) :
  let size := to (int_mul_unit (Z.of_nat n) u.byte) u.megabyte in
  to size u.megabyte = size /\
  unit size = u.megabyte /\
  (u.scale u.megabyte == 1000000 * u.scale u.byte)%Q /\
  (u.scale u.mebibyte == 1048576 * u.scale u.byte)%Q /\
  (Qabs (value size * 1000000 - inject_Z (Z.of_nat n))
   <= inject_Z (Z.of_nat n) * (1 # 2251799813685248))%Q.
Proof.
  cbv zeta. split; [apply to_idempotent|]. split; [reflexivity|].
  split; [reflexivity|]. split; [reflexivity|].
  apply to_megabyte_close. lia.
Qed.

(** ** The sample data *)

Section SampleData.

Context {rng : Type} `{BitGenerator rng} `{Backend}.

(** The kernel after the imports and the data cell, whatever it held
    before. *)
Lemma run_data_cell (k : Kernel rng) :
  let s0 := np_random k in
  let s1 := skip_double 256 s0 in
  let s2 := skip_gauss (1000 * 256) s1 in
  let offsets := map (fun j => (-10 + (10 - -10) * double_at s0 j)%Q) (seq 0 256) in
  exists k3,
    run [Cell1; Cell3] k = Ok k3 /\
    imported k3 = true /\
    np_random k3 = skip_double 1000 s2 /\
    data k3 = Some (Arr2 256
                (map (fun i => map (fun j => (nth j offsets 0
                                              + 1 * gauss_at s1 (i * 256 + j))%Q)
                                   (seq 0 256))
                     (seq 0 1000))) /\
    other_line k3 = Some (Arr1 (map (fun i => (0 + (1 - 0) * double_at s2 i)%Q)
                                    (seq 0 1000))) /\
    fig k3 = fig k /\ filesize k3 = filesize k /\ stdout k3 = stdout k.
Proof.
  intros s0 s1 s2 offsets.
  destruct (cell_1_imported k) as (k1 & E1 & Hi & Hs & Hout & Hf & Hz).
  pose proof (cell_3_spec k1 Hi) as E3. cbv zeta in E3. rewrite Hs in E3.
  eexists. split.
  - unfold run, run_cell. rewrite E1. unfold bind at 1. rewrite E3.
    unfold bind. reflexivity.
  - cbn [imported np_random data other_line fig filesize stdout].
    repeat (split; [reflexivity|]). auto.
Qed.

(** C3: whatever the state of the generator, the data cell binds [data]
    to a matrix of shape (1000, 256), each row of which has 256 entries,
    and [other_line] to a sequence of length 1000. *)
Theorem sample_data_shapes (k : Kernel rng) :
  exists k3 d o,
    run [Cell1; Cell3] k = Ok k3 /\
    data k3 = Some d /\ other_line k3 = Some o /\
    shape d = [1000; 256]%nat /\ rectangular d /\ shape o = [1000%nat].
Proof.
  destruct (run_data_cell k) as (k3 & Er & _ & _ & Hd & Ho & _).
  eexists k3, _, _. split; [exact Er|]. split; [exact Hd|]. split; [exact Ho|].
  unfold shape, rectangular. rewrite !length_map, !length_seq.
  split; [reflexivity|]. split; [|reflexivity].
  apply Forall_forall. intros r Hr. apply in_map_iff in Hr.
  destruct Hr as [i [<- _]]. now rewrite length_map, length_seq.
Qed.

Lemma nth_map_seq {A : Type} (f : nat -> A) (d : A) (n j : nat) :
  (j < n)%nat -> nth j (map f (seq 0 n)) d = f j.
Proof.
  intros Hj. rewrite (nth_indep _ d (f 0%nat)) by (now rewrite length_map, length_seq).
  rewrite map_nth, seq_nth by exact Hj. reflexivity.
Qed.

Lemma seq_as_map (a n : nat) : seq a n = map (fun j => (a + j)%nat) (seq 0 n).
Proof.
  revert a. induction n as [|n IH]; intros a.
  - reflexivity.
  - cbn [seq map]. f_equal; [lia|].
    rewrite (IH (S a)), <- seq_shift, map_map.
    apply map_ext. intros j. lia.
Qed.

(** The deviate numbers of a matrix filled in C order, row after row, are
    [0, 1, 2, ...]: no deviate is used for two entries. *)
Lemma row_major_indices (nr nc : nat) :
  concat (map (fun i => map (fun j => (i * nc + j)%nat) (seq 0 nc)) (seq 0 nr)) =
  seq 0 (nr * nc).
Proof.
  induction nr as [|n IH].
  - reflexivity.
  - rewrite seq_S, map_app, concat_app, IH. cbn [map concat Nat.add].
    rewrite app_nil_r.
    replace (S n * nc)%nat with (n * nc + nc)%nat by (cbn [Nat.mul]; lia).
    rewrite seq_app. f_equal. cbn [Nat.add]. symmetry. apply seq_as_map.
Qed.

(** The data cell entry by entry, in terms of the streams of doubles and
    of deviates of the generator: 256 offsets, one per column, each
    [-10 + 20 * u] for a double [u] of its own; then the matrix in row
    order, entry [(i, j)] being the offset of column [j] plus one times
    deviate number [i * 256 + j]; then the 1000 values of the reference
    sequence, each [0 + 1 * u] for a double of its own. *)
Theorem sample_data_generation (k : Kernel rng) :
  let s0 := np_random k in
  let offset := fun j => (-10 + (10 - -10) * double_at s0 j)%Q in
  let s1 := skip_double 256 s0 in
  let noise := fun i j => gauss_at s1 (i * 256 + j) in
  let s2 := skip_gauss (1000 * 256) s1 in
  exists k3,
    run [Cell1; Cell3] k = Ok k3 /\
    data k3 = Some (Arr2 256
                (map (fun i => map (fun j => (offset j + 1 * noise i j)%Q) (seq 0 256))
                     (seq 0 1000))) /\
    other_line k3 = Some (Arr1 (map (fun i => (0 + (1 - 0) * double_at s2 i)%Q)
                                    (seq 0 1000))) /\
    np_random k3 = skip_double 1000 s2 /\
    concat (map (fun i => map (fun j => (i * 256 + j)%nat) (seq 0 256)) (seq 0 1000)) =
      seq 0 (1000 * 256).
Proof.
  intros s0 offset s1 noise s2.
  destruct (run_data_cell k) as (k3 & Er & _ & Hs & Hd & Ho & _).
  exists k3. split; [exact Er|].
  split; [|split; [exact Ho | split; [exact Hs | exact (row_major_indices 1000 256)]]].
  rewrite Hd. apply (f_equal Some). apply (f_equal (Arr2 256)).
  apply map_ext. intros i.
  apply map_ext_in. intros j Hj. apply in_seq in Hj.
  rewrite (nth_map_seq (fun j => (-10 + (10 - -10) * double_at (np_random k) j)%Q))
    by lia.
  reflexivity.
Qed.


(** The arrays after the data cell, entry by entry. *)
Lemma sample_data_generation_closed (k : Kernel rng) :
  exists k3,
    run [Cell1; Cell3] k = Ok k3 /\ imported k3 = true /\
    data k3 = Some (Arr2 256
                (map (fun i => map (fun j =>
                          ((-10 + (10 - -10) * double_at (np_random k) j)
                           + 1 * gauss_at (skip_double 256 (np_random k)) (i * 256 + j))%Q)
                        (seq 0 256))
                     (seq 0 1000))) /\
    other_line k3 =
      Some (Arr1 (map (fun i => (0 + (1 - 0) * double_at
                        (skip_gauss (1000 * 256) (skip_double 256 (np_random k))) i)%Q)
                      (seq 0 1000))).
Proof.
  destruct (run_data_cell k) as (k3 & Er & Hi & _ & Hd & Ho & _).
  exists k3. split; [exact Er|]. split; [exact Hi|]. split; [|exact Ho].
  rewrite Hd. apply (f_equal Some). apply (f_equal (Arr2 256)).
  apply map_ext. intros i. apply map_ext_in. intros j Hj. apply in_seq in Hj.
  rewrite (nth_map_seq (fun j => (-10 + (10 - -10) * double_at (np_random k) j)%Q))
    by lia.
  reflexivity.
Qed.

End SampleData.

(** ** The figures *)

Lemma column_length (j : nat) (rows : list (list Q)) :
  length (column j rows) = length rows.
Proof. unfold column. apply length_map. Qed.

(** All lines of a figure share the index [0 .. n-1] as abscissa when the
    matrix has [n] rows and the vector [n] values. *)
Lemma figure_of_xdata (kt kr : LineProps) (rz : option Z)
      (ncols : nat) (rows : list (list Q)) (v : list Q) (n : nat) :
  length rows = n -> length v = n ->
  Forall (fun l => xdata l = seq 0 n)
         (lines (axes (figure_of kt kr rz (Arr2 ncols rows) (Arr1 v)))).
Proof.
  intros Hrows Hv.
  destruct (figure_of_lines kt kr rz ncols rows v)
    as (traces & ref & El & _ & Ht & Hy & Hr & Hyr).
  rewrite El. apply Forall_app. split.
  - apply Forall_forall. intros l Hl.
    rewrite Forall_forall in Ht. destruct (Ht l Hl) as [Hx _]. rewrite Hx.
    assert (Hin : In (ydata l) (columns ncols rows)).
    { rewrite <- Hy. now apply in_map. }
    unfold columns in Hin. apply in_map_iff in Hin. destruct Hin as [j [<- _]].
    now rewrite column_length, Hrows.
  - constructor; [|constructor]. destruct Hr as [Hx _]. now rewrite Hx, Hyr, Hv.
Qed.

Lemma made_from_zorder (kw : LineProps) (traces : list Line2D) :
  Forall (made_from kw) traces ->
  Forall (fun l => zorder l = from_option 2 (kw_zorder kw)) traces.
Proof. apply Forall_impl. intros l Hl. apply Hl. Qed.

(** What each plotting cell hands to the backend. *)
Lemma draw_figure_of_cell (c : cell) (ncols : nat) (rows : list (list Q)) (v : list Q) :
  ncols <> 0%nat ->
  exists traces ref,
    lines (axes (figure_of_cell c (Arr2 ncols rows) (Arr1 v))) = traces ++ [ref] /\
    rasterization_zorder (axes (figure_of_cell c (Arr2 ncols rows) (Arr1 v))) =
      match c with Cell9 => Some 0 | _ => None end /\
    length traces = ncols /\
    Forall (made_from (traces_props c)) traces /\
    map ydata traces = columns ncols rows /\
    made_from reference_props ref /\ ydata ref = v /\
    draw (axes (figure_of_cell c (Arr2 ncols rows) (Arr1 v))) =
      match c with
      | Cell7 | Cell9 => [RasterImage traces; VectorPath ref]
      | _ => map VectorPath traces ++ [VectorPath ref]
      end.
Proof.
  intros Hnc. unfold figure_of_cell.
  destruct (figure_of_lines (traces_props c) reference_props
              match c with Cell9 => Some 0 | _ => None end ncols rows v)
    as (traces & ref & El & Ez & Ht & Hy & Hr & Hyr).
  exists traces, ref.
  assert (Hlen : length traces = ncols).
  { rewrite <- (length_map ydata), Hy. unfold columns.
    now rewrite length_map, length_seq. }
  split; [exact El|]. split; [exact Ez|]. split; [exact Hlen|].
  split; [exact Ht|]. split; [exact Hy|]. split; [exact Hr|]. split; [exact Hyr|].
  pose proof (made_from_zorder _ _ Ht) as Hz.
  assert (Hzr : zorder ref = 2) by apply Hr.
  assert (Hrr : rasterized ref = false) by apply Hr.
  assert (Hrt : Forall (fun l => rasterized l =
                          from_option false (kw_rasterized (traces_props c))) traces).
  { eapply Forall_impl; [|exact Ht]. intros l Hl. apply Hl. }
  assert (Hne : traces <> []).
  { intros ->. apply Hnc. now rewrite <- Hlen. }
  destruct c; cbn [traces_props kw_zorder kw_rasterized from_option] in Hz, Hrt.
  - now apply draw_plain.
  - now apply draw_plain.
  - now apply draw_plain.
  - now apply draw_rasterized_traces.
  - apply draw_with_threshold; try assumption.
    apply Forall_app. split; [exact Hrt | now repeat constructor].
Qed.

(** Resetting the rasterization settings of a figure gives the figure that
    the same calls build without them. *)
Lemma figure_of_unrasterized (kt kr : LineProps) (rz : option Z) (d o : ndarray) :
  unrasterized (figure_of kt kr rz d o) =
  figure_of (default_rasterization kt) (default_rasterization kr) None d o.
Proof.
  unfold unrasterized, figure_of. cbn [axes]. f_equal.
  rewrite plot_unrasterized. f_equal.
  destruct rz as [z|].
  - now rewrite set_rasterization_zorder_unrasterized, plot_unrasterized.
  - now rewrite plot_unrasterized.
Qed.

Lemma figure_of_cell_unrasterized (c : cell) (d o : ndarray) :
  unrasterized (figure_of_cell c d o) = figure_of_cell Cell5 d o.
Proof.
  unfold figure_of_cell. rewrite figure_of_unrasterized. now destruct c.
Qed.

Lemma drawn_from_figure_of_cell (c : cell) (ncols : nat) (rows : list (list Q))
      (v : list Q) :
  ncols <> 0%nat ->
  drawn_from (Arr2 ncols rows) (Arr1 v) (figure_of_cell c (Arr2 ncols rows) (Arr1 v)).
Proof.
  intros Hnc.
  destruct (draw_figure_of_cell c ncols rows v Hnc)
    as (traces & ref & El & _ & _ & Ht & Hy & Hr & Hyr & Edraw).
  exists ncols, rows, v, traces, ref.
  split; [reflexivity|]. split; [reflexivity|]. split; [exact El|].
  split; [exact Hy|]. split; [exact Hyr|]. split; [|split].
  - eapply Forall_impl; [|exact Ht]. intros l (_ & Hm & Hw & Ha & _).
    repeat split; assumption.
  - destruct Hr as (_ & Hm & _ & _ & _ & _ & Hc). split; assumption.
  - rewrite Edraw. destruct c; eexists; try reflexivity.
    all: exact (eq_refl : [RasterImage traces; VectorPath ref]
                          = [RasterImage traces] ++ [VectorPath ref]).
Qed.

(** ** The notebook *)

Section NotebookFacts.

Context {rng : Type} `{BitGenerator rng} `{Backend}.

(** A plotting cell, once the imports are done and the arrays bound:
    it builds its figure and reports the measure of it. *)
Lemma run_plotting_cell (c : cell) (k : Kernel rng) (d o : ndarray) :
  In c plotting_cells ->
  imported k = true -> data k = Some d -> other_line k = Some o ->
  run_cell c k = Ok (report k (figure_of_cell c d o) (measure (figure_of_cell c d o))).
Proof.
  intros Hc Hi Hd Ho.
  destruct Hc as [<- | [<- | [<- | []]]].
  - exact (cell_5_spec k d o Hi Hd Ho).
  - exact (cell_7_spec k d o Hi Hd Ho).
  - exact (cell_9_spec k d o Hi Hd Ho).
Qed.

Lemma outcome_plotting_cell (c : cell) (k : Kernel rng) (d o : ndarray) :
  In c plotting_cells ->
  imported k = true -> data k = Some d -> other_line k = Some o ->
  outcome c k = Ok (Some (figure_of_cell c d o),
                    Some (measure (figure_of_cell c d o)),
                    [measure (figure_of_cell c d o)]).
Proof.
  intros Hc Hi Hd Ho. unfold outcome.
  rewrite (run_plotting_cell c k d o Hc Hi Hd Ho). unfold bind, report.
  cbn [fig filesize stdout].
  now rewrite skipn_app, skipn_all, Nat.sub_diag.
Qed.

Lemma run_app (cs1 cs2 : list cell) (k : Kernel rng) :
  run (cs1 ++ cs2) k = (let? k' := run cs1 k in run cs2 k').
Proof.
  revert k. induction cs1 as [|c cs1 IH]; intros k; cbn [app run].
  - reflexivity.
  - destruct (run_cell c k) as [k'|e]; cbn [bind]; [apply IH | reflexivity].
Qed.

(** The arrays after the data cell. *)
Lemma data_cell_arrays (k : Kernel rng) :
  exists k3 rows v,
    run [Cell1; Cell3] k = Ok k3 /\ imported k3 = true /\
    data k3 = Some (Arr2 256 rows) /\ other_line k3 = Some (Arr1 v) /\
    length rows = 1000%nat /\ length v = 1000%nat /\
    fig k3 = fig k /\ filesize k3 = filesize k /\ stdout k3 = stdout k.
Proof.
  destruct (run_data_cell k) as (k3 & Er & Hi & _ & Hd & Ho & Hf & Hz & Hout).
  eexists k3, _, _. split; [exact Er|]. split; [exact Hi|].
  split; [exact Hd|]. split; [exact Ho|].
  rewrite !length_map, !length_seq. repeat split; assumption.
Qed.

(** C4: in the figure of cell 9 each of the 256 traces has zorder -10,
    below the rasterization zorder 0 of the axes, and the reference line
    has zorder 2, not below it; the traces reach the backend together as
    one image, followed by the reference line as a vector path. *)
Theorem threshold_layering (k : Kernel rng) :
  exists k9 rows v f traces ref,
    run [Cell1; Cell3; Cell9] k = Ok k9 /\
    data k9 = Some (Arr2 256 rows) /\ other_line k9 = Some (Arr1 v) /\
    fig k9 = Some f /\
    lines (axes f) = traces ++ [ref] /\
    length traces = 256%nat /\
    map ydata traces = columns 256 rows /\ ydata ref = v /\
    rasterization_zorder (axes f) = Some 0 /\
    Forall (fun l => zorder l = -10 /\ zorder l < 0) traces /\
    zorder ref = 2 /\ 0 <= zorder ref /\
    Forall (fun l => rasterized l = false) (traces ++ [ref]) /\
    draw (axes f) = [RasterImage traces; VectorPath ref].
Proof.
  destruct (data_cell_arrays k) as (k3 & rows & v & Er & Hi & Hd & Ho & _).
  destruct (draw_figure_of_cell Cell9 256 rows v ltac:(discriminate))
    as (traces & ref & El & Ez & Hlen & Ht & Hy & Hr & Hyr & Edraw).
  eexists _, rows, v, (figure_of_cell Cell9 (Arr2 256 rows) (Arr1 v)), traces, ref.
  split.
  { change [Cell1; Cell3; Cell9] with ([Cell1; Cell3] ++ [Cell9]).
    rewrite run_app, Er. cbn [bind run].
    rewrite (run_plotting_cell Cell9 k3 _ _ ltac:(cbn; tauto) Hi Hd Ho).
    reflexivity. }
  cbn [report data other_line fig].
  split; [exact Hd|]. split; [exact Ho|]. split; [reflexivity|].
  split; [exact El|]. split; [exact Hlen|]. split; [exact Hy|].
  split; [exact Hyr|]. split; [exact Ez|].
  split.
  { eapply Forall_impl; [|exact Ht]. intros l Hl.
    assert (zorder l = -10) by apply Hl. lia. }
  assert (Hz : zorder ref = 2) by apply Hr.
  split; [exact Hz|]. split; [lia|]. split; [|exact Edraw].
  apply Forall_app. split.
  - eapply Forall_impl; [|exact Ht]. intros l Hl. apply Hl.
  - constructor; [apply Hr | constructor].
Qed.

(** The lines painted for a figure of the notebook are its lines, in the
    order in which they were plotted. *)
Lemma drawn_lines_figure_of_cell (c : cell) (ncols : nat) (rows : list (list Q))
      (v : list Q) :
  ncols <> 0%nat ->
  drawn_lines (draw (axes (figure_of_cell c (Arr2 ncols rows) (Arr1 v)))) =
    lines (axes (figure_of_cell c (Arr2 ncols rows) (Arr1 v))) /\
  map ydata (lines (axes (figure_of_cell c (Arr2 ncols rows) (Arr1 v)))) =
    columns ncols rows ++ [v].
Proof.
  intros Hnc.
  destruct (draw_figure_of_cell c ncols rows v Hnc)
    as (traces & ref & El & _ & _ & Ht & Hy & Hr & Hyr & _).
  rewrite drawn_lines_draw, El. split.
  - apply (sorted_by_zorder_traces_then_reference traces ref
             (from_option 2 (kw_zorder (traces_props c)))).
    + now apply made_from_zorder.
    + assert (Hzr : zorder ref = 2) by apply Hr. rewrite Hzr.
      destruct c; cbn; lia.
  - rewrite map_app, Hy. cbn [map]. now rewrite Hyr.
Qed.

(** C7: each plotting cell saves its figure with [format="pdf"] and
    [dpi=250], takes the number of bytes written, converts it from bytes
    to megabytes, binds the result to [filesize] and prints it, and does
    so whatever [fig], [filesize] and [stdout] held before; the whole
    notebook prints the three sizes in order and nothing else.  What is
    saved is the figure: the lines painted for the backend are the 257
    lines of the figure, which hold the columns of [data] and
    [other_line].  What is printed is in megabytes: the unit of the size is
    the megabyte, and its value times 1,000,000 is the number of bytes up
    to the rounding of binary64. *)
Theorem size_reporter (k : Kernel rng) :
  let nbytes_of := fun f : Figure =>
    Z.of_nat (length (print_figure "pdf" 250 (draw (axes f)))) in
  let size_of := fun f : Figure =>
    to (int_mul_unit (nbytes_of f) u.byte) u.megabyte in
  exists k3 rows v f5 f7 f9 k9,
    run [Cell1; Cell3] k = Ok k3 /\
    data k3 = Some (Arr2 256 rows) /\ other_line k3 = Some (Arr1 v) /\
    (forall fg sz out, outcome Cell5 (with_outputs k3 fg sz out) =
                       Ok (Some f5, Some (size_of f5), [size_of f5])) /\
    (forall fg sz out, outcome Cell7 (with_outputs k3 fg sz out) =
                       Ok (Some f7, Some (size_of f7), [size_of f7])) /\
    (forall fg sz out, outcome Cell9 (with_outputs k3 fg sz out) =
                       Ok (Some f9, Some (size_of f9), [size_of f9])) /\
    run notebook k = Ok k9 /\
    stdout k9 = stdout k ++ [size_of f5; size_of f7; size_of f9] /\
    fig k9 = Some f9 /\ filesize k9 = Some (size_of f9) /\
    Forall (fun f =>
              drawn_lines (draw (axes f)) = lines (axes f) /\
              map ydata (lines (axes f)) = columns 256 rows ++ [v] /\
              unit (size_of f) = u.megabyte /\
              (Qabs (value (size_of f) * 1000000 - inject_Z (nbytes_of f))
               <= inject_Z (nbytes_of f) * (1 # 2251799813685248))%Q)
           [f5; f7; f9].
Proof.
  intros nbytes_of size_of.
  destruct (data_cell_arrays k)
    as (k3 & rows & v & Er & Hi & Hd & Ho & _ & _ & _ & _ & Hout).
  set (d := Arr2 256 rows) in *. set (o := Arr1 v) in *.
  assert (Hc : forall c, In c plotting_cells ->
               forall fg sz out, outcome c (with_outputs k3 fg sz out) =
                 Ok (Some (figure_of_cell c d o),
                     Some (size_of (figure_of_cell c d o)),
                     [size_of (figure_of_cell c d o)])).
  { intros c Hin fg sz out.
    exact (outcome_plotting_cell c (with_outputs k3 fg sz out) d o Hin Hi Hd Ho). }
  eexists k3, rows, v, (figure_of_cell Cell5 d o), (figure_of_cell Cell7 d o),
          (figure_of_cell Cell9 d o), _.
  split; [exact Er|]. split; [exact Hd|]. split; [exact Ho|].
  split; [apply Hc; cbn; tauto|]. split; [apply Hc; cbn; tauto|].
  split; [apply Hc; cbn; tauto|].
  split.
  { change notebook with ([Cell1; Cell3] ++ [Cell5; Cell7; Cell9]).
    rewrite run_app, Er. cbn [bind run].
    rewrite (run_plotting_cell Cell5 k3 d o ltac:(cbn; tauto) Hi Hd Ho).
    cbn [bind].
    set (k5 := report k3 _ _).
    rewrite (run_plotting_cell Cell7 k5 d o ltac:(cbn; tauto) Hi Hd Ho).
    cbn [bind].
    set (k7 := report k5 _ _).
    rewrite (run_plotting_cell Cell9 k7 d o ltac:(cbn; tauto) Hi Hd Ho).
    reflexivity. }
  cbn [report stdout fig filesize]. rewrite Hout, <- !app_assoc.
  split; [reflexivity|]. split; [reflexivity|]. split; [reflexivity|].
  assert (Hf : forall c,
             drawn_lines (draw (axes (figure_of_cell c d o))) =
               lines (axes (figure_of_cell c d o)) /\
             map ydata (lines (axes (figure_of_cell c d o))) = columns 256 rows ++ [v] /\
             unit (size_of (figure_of_cell c d o)) = u.megabyte /\
             (Qabs (value (size_of (figure_of_cell c d o)) * 1000000
                    - inject_Z (nbytes_of (figure_of_cell c d o)))
              <= inject_Z (nbytes_of (figure_of_cell c d o))
                 * (1 # 2251799813685248))%Q).
  { intros c.
    destruct (drawn_lines_figure_of_cell c 256 rows v ltac:(discriminate)) as [H1 H2].
    split; [exact H1|]. split; [exact H2|]. split; [reflexivity|].
    apply to_megabyte_close. unfold nbytes_of. lia. }
  repeat constructor; apply Hf.
Qed.

(** The invariant of the notebook survives every cell, and no cell raises
    once it holds. *)
Lemma run_cell_invariant (c : cell) (k : Kernel rng) :
  notebook_invariant k ->
  exists k', run_cell c k = Ok k' /\ notebook_invariant k'.
Proof.
  intros (Hi & Hs & Hf).
  destruct c.
  - eexists. split; [reflexivity|]. now split.
  - pose proof (cell_3_spec k Hi) as E. cbv zeta in E.
    eexists. split; [exact E|]. split; [reflexivity|]. split; [|exact Hf].
    eexists _, _, _. cbn [data other_line].
    split; [reflexivity|]. split; [reflexivity|].
    rewrite !length_map, !length_seq. split; reflexivity.
  - destruct Hs as (nc & rows & v & Hd & Ho & Hr & Hv).
    eexists. split; [exact (run_plotting_cell Cell5 k _ _ ltac:(cbn; tauto) Hi Hd Ho)|].
    split; [exact Hi|]. split; [now exists nc, rows, v|].
    exact (figure_of_xdata _ _ _ nc rows v 1000 Hr Hv).
  - destruct Hs as (nc & rows & v & Hd & Ho & Hr & Hv).
    eexists. split; [exact (run_plotting_cell Cell7 k _ _ ltac:(cbn; tauto) Hi Hd Ho)|].
    split; [exact Hi|]. split; [now exists nc, rows, v|].
    exact (figure_of_xdata _ _ _ nc rows v 1000 Hr Hv).
  - destruct Hs as (nc & rows & v & Hd & Ho & Hr & Hv).
    eexists. split; [exact (run_plotting_cell Cell9 k _ _ ltac:(cbn; tauto) Hi Hd Ho)|].
    split; [exact Hi|]. split; [now exists nc, rows, v|].
    exact (figure_of_xdata _ _ _ nc rows v 1000 Hr Hv).
Qed.

Lemma run_invariant (cs : list cell) (k : Kernel rng) :
  notebook_invariant k ->
  exists k', run cs k = Ok k' /\ notebook_invariant k'.
Proof.
  revert k. induction cs as [|c cs IH]; intros k Hk.
  - exists k. now split.
  - destruct (run_cell_invariant c k Hk) as (k1 & E1 & Hk1).
    destruct (IH k1 Hk1) as (k' & E' & Hk').
    exists k'. split; [|exact Hk']. cbn [run]. now rewrite E1.
Qed.

(** C8: from a fresh kernel, after the imports and the data cell and then
    any cells of the notebook in any order and number, no cell has raised,
    [data] has 1000 rows and [other_line] 1000 values, and all lines of
    the current figure are drawn over the same abscissa [0 .. 999]. *)
Theorem shape_consistency_invariant (seed : rng) (cs : list cell) :
  exists k',
    run (Cell1 :: Cell3 :: cs) (fresh seed) = Ok k' /\
    shape_consistent k' /\ shared_abscissa k'.
Proof.
  destruct (data_cell_arrays (fresh seed))
    as (k3 & rows & v & Er & Hi & Hd & Ho & Hr & Hv & Hf & _).
  assert (Hk3 : notebook_invariant k3).
  { split; [exact Hi|]. split; [now exists 256%nat, rows, v|].
    unfold shared_abscissa. now rewrite Hf. }
  destruct (run_invariant cs k3 Hk3) as (k' & E' & _ & Hs & Hx).
  exists k'. split; [|now split].
  change (Cell1 :: Cell3 :: cs) with ([Cell1; Cell3] ++ cs).
  now rewrite run_app, Er.
Qed.

(** C9: the three plotting cells read the same two arrays; each draws
    one trace per column with [marker=""], [linewidth=1.0], [alpha=0.5]
    and then the reference line in black with [marker=""], which is the
    last thing drawn; each reports the size of the PDF at [dpi=250] in
    megabytes; and once [zorder] and [rasterized] of the lines and the
    rasterization zorder of the axes are reset, the three figures are
    the same. *)
Theorem only_rasterization_differs (k : Kernel rng) :
  exists k3 d o k5 k7 k9 f5 f7 f9,
    run [Cell1; Cell3] k = Ok k3 /\
    run_cell Cell5 k3 = Ok k5 /\ run_cell Cell7 k5 = Ok k7 /\
    run_cell Cell9 k7 = Ok k9 /\
    Forall (fun k' => data k' = Some d /\ other_line k' = Some o) [k3; k5; k7; k9] /\
    fig k5 = Some f5 /\ fig k7 = Some f7 /\ fig k9 = Some f9 /\
    filesize k5 = Some (measure f5) /\ filesize k7 = Some (measure f7) /\
    filesize k9 = Some (measure f9) /\
    Forall (drawn_from d o) [f5; f7; f9] /\
    unrasterized f7 = unrasterized f5 /\ unrasterized f9 = unrasterized f5.
Proof.
  destruct (data_cell_arrays k) as (k3 & rows & v & Er & Hi & Hd & Ho & _).
  set (d := Arr2 256 rows) in *. set (o := Arr1 v) in *.
  set (k5 := report k3 (figure_of_cell Cell5 d o) (measure (figure_of_cell Cell5 d o))).
  set (k7 := report k5 (figure_of_cell Cell7 d o) (measure (figure_of_cell Cell7 d o))).
  set (k9 := report k7 (figure_of_cell Cell9 d o) (measure (figure_of_cell Cell9 d o))).
  exists k3, d, o, k5, k7, k9,
    (figure_of_cell Cell5 d o), (figure_of_cell Cell7 d o), (figure_of_cell Cell9 d o).
  split; [exact Er|].
  split; [exact (run_plotting_cell Cell5 k3 d o ltac:(cbn; tauto) Hi Hd Ho)|].
  split; [exact (run_plotting_cell Cell7 k5 d o ltac:(cbn; tauto) Hi Hd Ho)|].
  split; [exact (run_plotting_cell Cell9 k7 d o ltac:(cbn; tauto) Hi Hd Ho)|].
  split; [repeat constructor; assumption|].
  do 6 (split; [reflexivity|]).
  split.
  { repeat constructor; apply drawn_from_figure_of_cell; discriminate. }
  now rewrite !figure_of_cell_unrasterized.
Qed.

End NotebookFacts.

(** ** The model at work on small inputs *)

Definition small_matrix : ndarray := Arr2 2 [[1; 2]; [3; 4]; [5; 6]]%Q.
Definition small_vector : ndarray := Arr1 [7; 8; 9]%Q.

Example columns_small :
  columns 2 [[1; 2]; [3; 4]; [5; 6]]%Q = [[1; 3; 5]; [2; 4; 6]]%Q.
Proof. reflexivity. Qed.

Example uniform_lcg_shape : shape (fst (uniform (-10) 10 4 (7 : Z))) = [4%nat].
Proof. reflexivity. Qed.

Example uniform_lcg_first :
  (fst (random_uniform 0 1 (7 : Z)) == 2150746609380039 # 9007199254740992)%Q.
Proof. vm_compute. reflexivity. Qed.

Example normal_broadcast_mismatch :
  normal (Arr1 [1; 2; 3]%Q) 1 (2, 2)%nat (7 : Z) =
  Raise ValueError.
Proof. reflexivity. Qed.

Example normal_lcg_shape :
  match normal (Arr1 [1; 2]%Q) 1 (3, 2)%nat (7 : Z) with
  | Ok (d, _) => shape d = [3; 2]%nat /\ rectangular d
  | Raise _ => False
  end.
Proof. cbn. repeat constructor. Qed.

Example plotting_before_imports :
  run_cell Cell5 (fresh (7 : Z)) = Raise (NameError "plt").
Proof. reflexivity. Qed.

Example plotting_before_data :
  run [Cell1; Cell5] (fresh (7 : Z)) = Raise (NameError "data").
Proof. reflexivity. Qed.

(** Three vector paths; one image of the two traces and a path, with
    [rasterized=True] as with the rasterization zorder. *)
Example draw_small_plain :
  map (fun op => match op with VectorPath _ => 0 | RasterImage g => Z.of_nat (length g) end)
      (draw (axes (figure_of_cell Cell5 small_matrix small_vector))) = [0; 0; 0].
Proof. reflexivity. Qed.

Example draw_small_rasterized :
  map (fun op => match op with VectorPath _ => 0 | RasterImage g => Z.of_nat (length g) end)
      (draw (axes (figure_of_cell Cell7 small_matrix small_vector))) = [2; 0].
Proof. reflexivity. Qed.

Example draw_small_threshold :
  map (fun op => match op with VectorPath _ => 0 | RasterImage g => Z.of_nat (length g) end)
      (draw (axes (figure_of_cell Cell9 small_matrix small_vector))) = [2; 0].
Proof. reflexivity. Qed.

(** A rasterization zorder equal to the zorder of the reference line puts
    that line on the image as well. *)
Example draw_small_threshold_2 :
  let f := figure_of (traces_props Cell9) reference_props (Some 2)
                     small_matrix small_vector in
  image_sizes (draw (axes f)) = [3%nat] /\ vector_paths (draw (axes f)) = [].
Proof. split; reflexivity. Qed.

(** Rasterized lines on both sides of the axis objects, which are drawn
    between them as vector graphics, do not share an image. *)
Example draw_small_two_images :
  let below := {| kw_marker := None; kw_linewidth := None; kw_alpha := None;
                  kw_color := None; kw_zorder := Some 1;
                  kw_rasterized := Some true |} in
  let above := {| kw_marker := None; kw_linewidth := None; kw_alpha := None;
                  kw_color := None; kw_zorder := Some 2;
                  kw_rasterized := Some true |} in
  image_sizes (draw (plot small_vector above (plot small_vector below (axes subplots))))
  = [1; 1]%nat.
Proof. reflexivity. Qed.

(** A line below the others is drawn first even when it was added last. *)
Example draw_order_follows_zorder :
  map ydata (sorted_by_zorder
    (lines (plot small_vector (traces_props Cell9)
              (plot small_vector reference_props (axes subplots))))) =
  map ydata
    (lines (plot small_vector reference_props
              (plot small_vector (traces_props Cell9) (axes subplots)))).
Proof. reflexivity. Qed.

Example measure_small :
  nbytes (savefig (figure_of_cell Cell9 small_matrix small_vector) "pdf" 250) = 2 /\
  unit (measure (figure_of_cell Cell9 small_matrix small_vector)) = u.megabyte.
Proof. split; reflexivity. Qed.

(** The megabyte is the decimal one, not the mebibyte. *)
Example megabyte_is_decimal :
  (value (to (int_mul_unit 1000000 u.byte) u.megabyte) == 1)%Q /\
  (value (to (int_mul_unit 1048576 u.byte) u.mebibyte) == 1)%Q /\
  ~ (value (to (int_mul_unit 1048576 u.byte) u.megabyte) == 1)%Q.
Proof. split; [reflexivity|]. split; [reflexivity | discriminate]. Qed.

(** Idempotence is a property of the quantity, which carries its unit: the
    bare number read as a count of bytes again converts to something else. *)
Remark megabyte_value_read_as_bytes :
  let size := to (int_mul_unit 1000000 u.byte) u.megabyte in
  (value size == 1)%Q /\
  ~ (value (to {| value := value size; unit := u.byte |} u.megabyte) == 1)%Q.
Proof. split; [reflexivity | discriminate]. Qed.

(* ================================================================== *)
(** * Further properties *)

(** ** Drawing in general *)

(** X1: whatever lines an axes holds, whatever their zorders and
    [rasterized] flags and whatever the rasterization zorder, the lines
    painted by [draw], images and vector paths together, are the lines of
    the axes in stable zorder: each line is painted exactly once, and a
    line is never painted before one of lower zorder. *)
Theorem draw_paints_every_line_once (ax : Axes) :
  drawn_lines (draw ax) = sorted_by_zorder (lines ax) /\
  Permutation (drawn_lines (draw ax)) (lines ax) /\
  StronglySorted zorder_le (drawn_lines (draw ax)).
Proof.
  rewrite (drawn_lines_draw ax). split; [reflexivity|]. split.
  - apply sorted_by_zorder_perm.
  - apply sorted_by_zorder_sorted.
Qed.

(** ** Images and paths of the three cells *)

Lemma image_sizes_vector_paths (l : list Line2D) :
  image_sizes (map VectorPath l) = [] /\ vector_paths (map VectorPath l) = l.
Proof.
  induction l as [|a l [IH1 IH2]]; [now split|].
  cbn [map image_sizes vector_paths flat_map app].
  fold (image_sizes (map VectorPath l)). fold (vector_paths (map VectorPath l)).
  now rewrite IH1, IH2.
Qed.

Lemma image_sizes_app (ops1 ops2 : list DrawOp) :
  image_sizes (ops1 ++ ops2) = image_sizes ops1 ++ image_sizes ops2.
Proof. apply flat_map_app. Qed.

Lemma vector_paths_app (ops1 ops2 : list DrawOp) :
  vector_paths (ops1 ++ ops2) = vector_paths ops1 ++ vector_paths ops2.
Proof. apply flat_map_app. Qed.

(** X3: with the traces at zorder -10 and the reference line at the
    default zorder 2, as in cell 9, the rasterization zorder [rz] decides
    what the backend gets: nothing is rasterized for [rz <= -10] (also when
    the traces are exactly at the threshold, because the first child is
    then not below it); the traces alone form one image for
    [-10 < rz <= 1], with the very drawing operations of the notebook's
    threshold 0; and from 2 on, the zorder of the reference line, that line
    is painted on the image as well and no vector path is left. *)
Theorem threshold_choice (rz : Z) (n : nat) (rows : list (list Q)) (v : list Q) :
  let d := Arr2 (S n) rows in
  let o := Arr1 v in
  let f := figure_of (traces_props Cell9) reference_props (Some rz) d o in
  (image_sizes (draw (axes f)), length (vector_paths (draw (axes f)))) =
    (if rz <=? -10 then ([], S (S n))
     else if rz <=? 1 then ([S n], 1%nat)
     else ([S (S n)], 0%nat)) /\
  if (-10 <? rz) && (rz <=? 1)
  then draw (axes f) = draw (axes (figure_of_cell Cell9 d o))
  else True.
Proof.
  intros d o f.
  destruct (figure_of_lines (traces_props Cell9) reference_props (Some rz) (S n) rows v)
    as (traces & ref & El & Ez & Ht & Hy & Hr & Hyr).
  destruct (figure_of_lines (traces_props Cell9) reference_props (Some 0) (S n) rows v)
    as (traces0 & ref0 & El0 & Ez0 & Ht0 & Hy0 & Hr0 & Hyr0).
  assert (Elines : traces0 ++ [ref0] = traces ++ [ref]).
  { rewrite <- El, <- El0. unfold figure_of. cbn [axes].
    unfold plot, set_rasterization_zorder.
    cbn [lines prop_cycle_pos rasterization_zorder].
    repeat match goal with |- context [make_lines ?a ?b ?c] =>
      destruct (make_lines a b c) end.
    reflexivity. }
  apply app_inj_tail in Elines. destruct Elines as [-> ->].
  assert (Hlen : length traces = S n).
  { rewrite <- (length_map ydata), Hy. unfold columns.
    now rewrite length_map, length_seq. }
  assert (Hne : traces <> []) by (intros ->; discriminate).
  pose proof (made_from_zorder _ _ Ht) as Hz.
  cbn [traces_props kw_zorder from_option] in Hz.
  assert (Hzr : zorder ref = 2) by apply Hr.
  assert (Hras : Forall (fun l => rasterized l = false) (traces ++ [ref])).
  { apply Forall_app. split.
    - eapply Forall_impl; [|exact Ht]. intros l Hl. apply Hl.
    - constructor; [apply Hr | constructor]. }
  pose proof (draw_threshold_regimes (axes f) traces ref (-10) rz
                El Ez Hne Hz ltac:(lia) Hzr Hras) as E.
  pose proof (draw_with_threshold (axes (figure_of_cell Cell9 d o)) traces ref
                El0 Ez0 Hne Hz Hzr Hras) as E0.
  split.
  - rewrite E. destruct (rz <=? -10); [|destruct (rz <=? 1)].
    + destruct (image_sizes_vector_paths (traces ++ [ref])) as [-> ->].
      now rewrite length_app, Hlen, Nat.add_1_r.
    + cbn. now rewrite Hlen.
    + cbn. now rewrite length_app, Hlen, Nat.add_1_r.
  - destruct (Z.ltb_spec (-10) rz) as [H1|H1]; [|exact I].
    destruct (Z.leb_spec rz 1) as [H2|H2]; [|exact I].
    cbn [andb]. rewrite E, E0.
    destruct (Z.leb_spec rz (-10)); [lia|].
    destruct (Z.leb_spec rz 1); [reflexivity | lia].
Qed.

(** ** Colors and data of the lines *)

(** Lines made without [color] take the colors of the cycle in turn. *)
Lemma make_lines_colors (kw : LineProps) (pos : nat) (ys : list (list Q)) :
  kw_color kw = None -> (pos < 10)%nat ->
  map color (fst (make_lines kw pos ys)) =
    map (fun j => CycleColor ((pos + j) mod 10)) (seq 0 (length ys)) /\
  snd (make_lines kw pos ys) = ((pos + length ys) mod 10)%nat.
Proof.
  intros Hc. revert pos. induction ys as [|y ys IH]; intros pos Hpos.
  - cbn [make_lines fst snd length seq map]. split; [reflexivity|].
    now rewrite Nat.add_0_r, Nat.mod_small.
  - cbn [make_lines].
    assert (El : exists l, make_line kw pos y = (l, (S pos mod 10)%nat) /\
                           color l = CycleColor pos).
    { unfold make_line. rewrite Hc. eexists. split; reflexivity. }
    destruct El as (l & El & Hl). rewrite El.
    assert (Hnext : (S pos mod 10 < 10)%nat) by (apply Nat.mod_upper_bound; lia).
    destruct (IH (S pos mod 10)%nat Hnext) as [IH1 IH2].
    destruct (make_lines kw (S pos mod 10) ys) as [ls p2].
    cbn [fst snd map length seq color] in *. split.
    + f_equal.
      * now rewrite Hl, Nat.add_0_r, Nat.mod_small.
      * rewrite IH1, <- seq_shift, map_map. apply map_ext. intros j.
        rewrite Nat.Div0.add_mod_idemp_l. f_equal. f_equal. lia.
    + rewrite IH2, Nat.Div0.add_mod_idemp_l. f_equal. lia.
Qed.

Lemma columns_length (ncols : nat) (rows : list (list Q)) :
  length (columns ncols rows) = ncols.
Proof. unfold columns. now rewrite length_map, length_seq. Qed.

Lemma figure_of_colors (kt kr : LineProps) (rz : option Z) (name : string)
      (ncols : nat) (rows : list (list Q)) (v : list Q) :
  kw_color kt = None -> kw_color kr = Some name ->
  map color (lines (axes (figure_of kt kr rz (Arr2 ncols rows) (Arr1 v)))) =
  map (fun j => CycleColor (j mod 10)) (seq 0 ncols) ++ [NamedColor name].
Proof.
  intros Ht Hr.
  destruct (make_lines_colors kt 0 (columns ncols rows) Ht ltac:(lia)) as [Ec _].
  rewrite columns_length in Ec. cbn [Nat.add] in Ec.
  unfold figure_of, plot, set_rasterization_zorder.
  cbn [axes subplots lines prop_cycle_pos rasterization_zorder app make_lines].
  destruct (make_lines kt 0 (columns ncols rows)) as [traces pos]. cbn [fst] in Ec.
  destruct rz as [z|]; cbn [lines prop_cycle_pos];
    unfold make_line; rewrite Hr; cbn [lines];
    now rewrite map_app, Ec.
Qed.

(** The columns of a matrix given by its entries. *)
Lemma columns_of_entries (F : nat -> nat -> Q) (nr nc : nat) :
  columns nc (map (fun i => map (fun j => F i j) (seq 0 nc)) (seq 0 nr)) =
  map (fun j => map (fun i => F i j) (seq 0 nr)) (seq 0 nc).
Proof.
  unfold columns, column. apply map_ext_in. intros j Hj. apply in_seq in Hj.
  rewrite map_map. apply map_ext. intros i.
  apply (nth_map_seq (fun j => F i j)). lia.
Qed.

(** ** The cells in general *)

Section FurtherNotebookFacts.

Context {rng : Type} `{BitGenerator rng} `{Backend}.

Lemma figure_after_plotting (c : cell) (k k3 : Kernel rng) (d o : ndarray) :
  In c plotting_cells ->
  run [Cell1; Cell3] k = Ok k3 ->
  imported k3 = true -> data k3 = Some d -> other_line k3 = Some o ->
  figure_after [Cell1; Cell3; c] k = Some (figure_of_cell c d o).
Proof.
  intros Hc Er Hi Hd Ho. unfold figure_after.
  change [Cell1; Cell3; c] with ([Cell1; Cell3] ++ [c]).
  rewrite run_app, Er. cbn [bind run].
  now rewrite (run_plotting_cell c k3 d o Hc Hi Hd Ho).
Qed.

(** X2: after the data cell, the plain cell hands the backend 257 vector
    paths and no image; the cell with [rasterized=True] and the cell with
    the rasterization zorder each hand it a single image on which all 256
    traces are painted, and one vector path, the reference line. *)
Theorem raster_images_per_cell (k : Kernel rng) :
  exists f5 f7 f9,
    figure_after [Cell1; Cell3; Cell5] k = Some f5 /\
    figure_after [Cell1; Cell3; Cell7] k = Some f7 /\
    figure_after [Cell1; Cell3; Cell9] k = Some f9 /\
    image_sizes (draw (axes f5)) = [] /\
    length (vector_paths (draw (axes f5))) = 257%nat /\
    image_sizes (draw (axes f7)) = [256%nat] /\
    length (vector_paths (draw (axes f7))) = 1%nat /\
    image_sizes (draw (axes f9)) = [256%nat] /\
    length (vector_paths (draw (axes f9))) = 1%nat.
Proof.
  destruct (data_cell_arrays k) as (k3 & rows & v & Er & Hi & Hd & Ho & _).
  exists (figure_of_cell Cell5 (Arr2 256 rows) (Arr1 v)),
         (figure_of_cell Cell7 (Arr2 256 rows) (Arr1 v)),
         (figure_of_cell Cell9 (Arr2 256 rows) (Arr1 v)).
  split; [apply (figure_after_plotting Cell5 k k3); auto; cbn; tauto|].
  split; [apply (figure_after_plotting Cell7 k k3); auto; cbn; tauto|].
  split; [apply (figure_after_plotting Cell9 k k3); auto; cbn; tauto|].
  destruct (draw_figure_of_cell Cell5 256 rows v ltac:(discriminate))
    as (t5 & r5 & _ & _ & Hl5 & _ & _ & _ & _ & E5).
  destruct (draw_figure_of_cell Cell7 256 rows v ltac:(discriminate))
    as (t7 & r7 & _ & _ & Hl7 & _ & _ & _ & _ & E7).
  destruct (draw_figure_of_cell Cell9 256 rows v ltac:(discriminate))
    as (t9 & r9 & _ & _ & Hl9 & _ & _ & _ & _ & E9).
  rewrite E5, E7, E9, !image_sizes_app, !vector_paths_app.
  destruct (image_sizes_vector_paths t5) as [-> ->].
  cbn [image_sizes vector_paths flat_map app length].
  rewrite length_app, Hl5, Hl7, Hl9.
  repeat split; reflexivity.
Qed.

Lemma run_first_error (cs : list cell) (k : Kernel rng) (imp dat : bool) :
  imported k = imp -> arrays_bound dat k ->
  match first_error imp dat cs with
  | None => exists k', run cs k = Ok k'
  | Some name => run cs k = Raise (NameError name)
  end.
Proof.
  revert k imp dat. induction cs as [|c cs IH]; intros k imp dat Hi Hd.
  - now exists k.
  - destruct c; cbn [first_error run].
    + unfold run_cell, cell_1. cbn [bind]. apply IH; [reflexivity | exact Hd].
    + destruct imp.
      * pose proof (cell_3_spec k Hi) as E. cbv zeta in E.
        unfold run_cell. rewrite E. cbn [bind].
        apply IH; [reflexivity|]. unfold arrays_bound. cbn [data other_line]. eauto.
      * unfold run_cell, cell_3, need_import. now rewrite Hi.
    + destruct imp; [destruct dat|].
      * destruct Hd as (d & o & Hd & Ho).
        rewrite (run_plotting_cell Cell5 k d o ltac:(cbn; tauto) Hi Hd Ho).
        cbn [bind]. apply IH; [exact Hi|]. now exists d, o.
      * destruct Hd as [Hd Ho]. unfold run_cell, cell_5, need_import.
        now rewrite Hi, Hd.
      * unfold run_cell, cell_5, need_import. now rewrite Hi.
    + destruct imp; [destruct dat|].
      * destruct Hd as (d & o & Hd & Ho).
        rewrite (run_plotting_cell Cell7 k d o ltac:(cbn; tauto) Hi Hd Ho).
        cbn [bind]. apply IH; [exact Hi|]. now exists d, o.
      * destruct Hd as [Hd Ho]. unfold run_cell, cell_7, need_import.
        now rewrite Hi, Hd.
      * unfold run_cell, cell_7, need_import. now rewrite Hi.
    + destruct imp; [destruct dat|].
      * destruct Hd as (d & o & Hd & Ho).
        rewrite (run_plotting_cell Cell9 k d o ltac:(cbn; tauto) Hi Hd Ho).
        cbn [bind]. apply IH; [exact Hi|]. now exists d, o.
      * destruct Hd as [Hd Ho]. unfold run_cell, cell_9, need_import.
        now rewrite Hi, Hd.
      * unfold run_cell, cell_9, need_import. now rewrite Hi.
Qed.

(** X4: cells run in any order and number from a fresh kernel raise
    nothing but [NameError], and only for a cell that comes too early: the
    data cell before the imports fails on [np], a plotting cell before the
    imports on [plt], a plotting cell after the imports but before the data
    cell on [data]; otherwise the run completes.  In particular the data
    cell never fails on the shapes of its two calls. *)
Theorem run_order (seed : rng) (cs : list cell) :
  match first_error false false cs with
  | None => exists k', run cs (fresh seed) = Ok k'
  | Some name => run cs (fresh seed) = Raise (NameError name)
  end.
Proof. apply run_first_error; [reflexivity | now split]. Qed.

Lemma run_cell_stdout (c : cell) (k : Kernel rng) :
  match run_cell c k with
  | Ok k' => exists new, stdout k' = stdout k ++ new /\
                         length new = (if is_plotting c then 1 else 0)%nat
  | Raise _ => True
  end.
Proof.
  destruct (imported k) eqn:Hi.
  - destruct c.
    + exists []. split; [symmetry; apply app_nil_r | reflexivity].
    + pose proof (cell_3_spec k Hi) as E. cbv zeta in E.
      unfold run_cell. rewrite E. exists [].
      split; [symmetry; apply app_nil_r | reflexivity].
    + destruct (data k) as [d|] eqn:Hd; [destruct (other_line k) as [o|] eqn:Ho|].
      * rewrite (run_plotting_cell Cell5 k d o ltac:(cbn; tauto) Hi Hd Ho).
        eexists [_]. split; reflexivity.
      * unfold run_cell, cell_5, need_import. rewrite Hi, Hd, Ho. exact I.
      * unfold run_cell, cell_5, need_import. rewrite Hi, Hd. exact I.
    + destruct (data k) as [d|] eqn:Hd; [destruct (other_line k) as [o|] eqn:Ho|].
      * rewrite (run_plotting_cell Cell7 k d o ltac:(cbn; tauto) Hi Hd Ho).
        eexists [_]. split; reflexivity.
      * unfold run_cell, cell_7, need_import. rewrite Hi, Hd, Ho. exact I.
      * unfold run_cell, cell_7, need_import. rewrite Hi, Hd. exact I.
    + destruct (data k) as [d|] eqn:Hd; [destruct (other_line k) as [o|] eqn:Ho|].
      * rewrite (run_plotting_cell Cell9 k d o ltac:(cbn; tauto) Hi Hd Ho).
        eexists [_]. split; reflexivity.
      * unfold run_cell, cell_9, need_import. rewrite Hi, Hd, Ho. exact I.
      * unfold run_cell, cell_9, need_import. rewrite Hi, Hd. exact I.
  - destruct c.
    + exists []. split; [symmetry; apply app_nil_r | reflexivity].
    + unfold run_cell, cell_3, need_import. rewrite Hi. exact I.
    + unfold run_cell, cell_5, need_import. rewrite Hi. exact I.
    + unfold run_cell, cell_7, need_import. rewrite Hi. exact I.
    + unfold run_cell, cell_9, need_import. rewrite Hi. exact I.
Qed.

(** X5: a run that completes, from any kernel and with any cells in any
    order, leaves what was printed before in place and adds exactly one
    printed size per plotting cell run; the imports and the data cell
    print nothing. *)
Theorem prints_once_per_plotting_cell (cs : list cell) (k : Kernel rng) :
  match run cs k with
  | Ok k' => exists new, stdout k' = stdout k ++ new /\
                         length new = length (filter is_plotting cs)
  | Raise _ => True
  end.
Proof.
  revert k. induction cs as [|c cs IH]; intros k.
  - exists []. split; [symmetry; apply app_nil_r | reflexivity].
  - cbn [run]. pose proof (run_cell_stdout c k) as H1.
    destruct (run_cell c k) as [k1|e]; cbn [bind]; [|exact I].
    specialize (IH k1). destruct (run cs k1) as [k'|e]; [|exact I].
    destruct H1 as (new1 & E1 & L1). destruct IH as (new2 & E2 & L2).
    exists (new1 ++ new2). split.
    + now rewrite E2, E1, app_assoc.
    + rewrite length_app, L1, L2. cbn [filter].
      destruct (is_plotting c); reflexivity.
Qed.

(** X7: in each of the three figures the 256 traces take the ten colors
    of the default cycle in turn, trace [j] having color number [j mod 10],
    and the reference line is black and takes no color of the cycle. *)
Theorem trace_colors (k : Kernel rng) :
  Forall (fun c => exists f,
            figure_after [Cell1; Cell3; c] k = Some f /\
            map color (lines (axes f)) =
              map (fun j => CycleColor (j mod 10)) (seq 0 256) ++ [NamedColor "k"])
         plotting_cells.
Proof.
  destruct (data_cell_arrays k) as (k3 & rows & v & Er & Hi & Hd & Ho & _).
  apply Forall_forall. intros c Hc.
  exists (figure_of_cell c (Arr2 256 rows) (Arr1 v)).
  split; [now apply (figure_after_plotting c k k3)|].
  unfold figure_of_cell. now apply figure_of_colors.
Qed.


End FurtherNotebookFacts.

(** ** Sizes and shapes *)

(** X9: for buffers of less than 2^52 bytes, where neighbouring byte
    counts still give different binary64 sizes, the printed sizes compare
    as the buffers do: the size in megabytes of [n] bytes is at most that
    of [m] bytes exactly when [n <= m], and the two are equal exactly when
    [n = m]. *)
Theorem megabytes_compare_like_bytes (n m : Z) :
  0 <= n < 2 ^ 52 -> 0 <= m < 2 ^ 52 ->
  let size := fun b : Z => value (to (int_mul_unit b u.byte) u.megabyte) in
  Qle_bool (size n) (size m) = (n <=? m) /\
  Qeq_bool (size n) (size m) = (n =? m).
Proof.
  intros _ _. cbv zeta.
  assert (Hle : forall a b : Z,
             (inject_Z a / 1000000 <= inject_Z b / 1000000)%Q <-> a <= b).
  { intros a b. unfold Qdiv.
    rewrite (Qmult_le_r _ _ (/ 1000000)) by reflexivity.
    now rewrite <- Zle_Qle. }
  split.
  - destruct (Z.leb_spec n m) as [Hnm|Hnm].
    + apply Qle_bool_iff. rewrite !to_megabyte_value.
      exact (proj2 (Hle n m) Hnm).
    + destruct (Qle_bool _ _) eqn:E; [|reflexivity].
      apply Qle_bool_iff in E. rewrite !to_megabyte_value in E.
      pose proof (proj1 (Hle n m) E). lia.
  - destruct (Z.eqb_spec n m) as [->|Hnm].
    + apply Qeq_bool_iff. reflexivity.
    + destruct (Qeq_bool _ _) eqn:E; [|reflexivity].
      apply Qeq_bool_iff in E. rewrite !to_megabyte_value in E.
      assert (H1 : n <= m) by (apply (proj1 (Hle n m)); rewrite E; apply Qle_refl).
      assert (H2 : m <= n) by (apply (proj1 (Hle m n)); rewrite E; apply Qle_refl).
      lia.
Qed.

Lemma megabytes_compare_like_bytes_at_2021526 :
  (0 <= 2021526 < 2 ^ 52) /\ (0 <= 2021527 < 2 ^ 52) /\
  let size := fun b : Z => value (to (int_mul_unit b u.byte) u.megabyte) in
  Qle_bool (size 2021526) (size 2021527) = (2021526 <=? 2021527) /\
  Qeq_bool (size 2021526) (size 2021527) = (2021526 =? 2021527).
Proof.
  assert (H1 : 0 <= 2021526 < 2 ^ 52) by (split; [easy | reflexivity]).
  assert (H2 : 0 <= 2021527 < 2 ^ 52) by (split; [easy | reflexivity]).
  split; [exact H1|]. split; [exact H2|].
  exact (megabytes_compare_like_bytes 2021526 2021527 H1 H2).
Defined.

Section FurtherSamplingFacts.

Context {rng : Type} `{BitGenerator rng}.

Lemma fill_rows_lengths {A : Type} (f : A -> rng -> Q * rng) (nc : nat)
      (locss : list (list A)) (s : rng) :
  Forall (fun r => length r = nc) locss ->
  Forall (fun r => length r = nc) (fst (fill (fill f) locss s)).
Proof.
  intros Hall. revert s. induction Hall as [|r rest Hr _ IH]; intros s.
  - constructor.
  - cbn [fill]. pose proof (fill_length f r s) as Hlen.
    destruct (fill f r s) as [b s1]. specialize (IH s1).
    destruct (fill (fill f) rest s1) as [bs s2]. cbn [fst] in *.
    constructor; [now rewrite Hlen | exact IH].
Qed.


End FurtherSamplingFacts.
